(** * Slashing accounting and blob processing of beacon-kit

    A shallow embedding of

    - [processSlashingsReset], [processSlashings] and [processSlash]
      (package [core], the state processor), and
    - [ProcessBlobs] (package [blobs], the blob processor),

    together with the properties their specification states.

    Go's [uint64] is embedded as [Z] with the wrap-around at [2^64] written
    out; a Go function returning [error] is embedded as a computation in a
    state monad whose result is a return value, an error, or a run-time
    panic (integer division by zero). *)

From Stdlib Require Import ZArith Lia.
From stdpp Require Import base option list gmap strings.

Local Open Scope Z_scope.
Local Set Warnings "-register-all".

(** ** Go run-time basics *)

Module Go.

(** [uint64] arithmetic: results are reduced modulo [2^64]. *)
Definition modulus64 : Z := 2 ^ 64.
Definition wrap64 (z : Z) : Z := z mod modulus64.
Definition add64 (a b : Z) : Z := wrap64 (a + b).
Definition mul64 (a b : Z) : Z := wrap64 (a * b).

(** The range of a [uint64]. *)
Definition is_uint64 (z : Z) : Prop := 0 <= z < modulus64.

(** Values of the interface type [error] that are not nil.
    [joinError] is what [errors.Join] builds. *)
Inductive error : Type :=
| ErrAttemptedToVerifyNilSidecar
| errorString (msg : string)
| joinError (errs : list error).

Inductive runtime_panic : Type :=
| DivideByZero.

(** What a call yields: a value, a non-nil [error], or a panic. *)
Inductive res (A : Type) : Type :=
| Ret (a : A)
| Raise (e : error)
| Panic (p : runtime_panic).
Global Arguments Ret {A} a.
Global Arguments Raise {A} e.
Global Arguments Panic {A} p.

(** [a / b] and [a % b] on [uint64]: the run time panics when [b] is 0. *)
Definition udiv (a b : Z) : res Z :=
  if b =? 0 then Panic DivideByZero else Ret (a / b).
Definition umod (a b : Z) : res Z :=
  if b =? 0 then Panic DivideByZero else Ret (a mod b).

(** [errors.Join]: nil errors are dropped; the result is nil when none is
    left, and one error wrapping the others, in order, otherwise. *)
Definition Join (errs : list (option error)) : option error :=
  match omap id errs with
  | [] => None
  | es => Some (joinError es)
  end.

End Go.
Import Go.

(** ** Computations over a mutable state *)

Definition M (St A : Type) : Type := St -> St * res A.

Definition pure {St A} (r : res A) : M St A := fun st => (st, r).
Definition read {St A} (f : St -> res A) : M St A := fun st => (st, f st).
Definition seq {St A B} (m : M St A) (k : A -> M St B) : M St B :=
  fun st =>
    match m st with
    | (st1, Ret a) => k a st1
    | (st1, Raise e) => (st1, Raise e)
    | (st1, Panic p) => (st1, Panic p)
    end.

Notation "'let!' x ':=' m 'in' k" := (seq m (fun x => k))
  (at level 10, x name, m at level 100, k at level 200, only parsing).

(** ** Consensus types *)

(** [types.Validator], as far as the state processor reads it.  The public
    key (48 bytes) is the integer it encodes; epochs and Gwei amounts are
    [uint64].  A registry is a list of validators: the pointers it holds are
    taken not to be nil. *)
Record Validator : Type := mkValidator {
  Pubkey : Z;
  EffectiveBalance : Z;
  Slashed : bool;
  WithdrawableEpoch : Z
}.

(** The chain specification [sp.cs], whose type is not part of the sources:
    the chain parameters the state processor reads, and the slot-to-epoch
    conversion, are taken as they come. *)
Record ChainSpec : Type := mkChainSpec {
  SlotsPerEpoch : Z;
  EpochsPerSlashingsVector : Z;
  ProportionalSlashingMultiplier : Z;
  EffectiveBalanceIncrement : Z;
  SlotToEpoch : Z -> Z
}.

(** The interface [state.BeaconState], as far as the state processor uses
    it.  Reads leave the state alone; writes return the state they leave
    behind together with their result. *)
Class BeaconState (St : Type) : Type := {
  GetSlot : St -> res Z;
  GetTotalActiveBalances : Z -> St -> res Z;
  GetTotalSlashing : St -> res Z;
  GetValidators : St -> res (list Validator);
  ValidatorIndexByPubkey : Z -> St -> res Z;
  DecreaseBalance : Z -> Z -> M St unit;
  UpdateSlashingAtIndex : Z -> Z -> M St unit
}.

(** ** The state processor *)

Section StateProcessor.
Context {St : Type} `{!BeaconState St}.
Variable cs : ChainSpec.

Definition processSlashingsReset : M St unit :=
  let! slot := read GetSlot in
  let! index := pure (umod (add64 (SlotToEpoch cs slot) 1)
                      (EpochsPerSlashingsVector cs)) in
  UpdateSlashingAtIndex index 0.

Definition processSlash (val : Validator)
    (adjustedTotalSlashingBalance totalBalance : Z) : M St unit :=
  let increment := EffectiveBalanceIncrement cs in
  let! balDivIncrement := pure (udiv (EffectiveBalance val) increment) in
  let penaltyNumerator := mul64 balDivIncrement adjustedTotalSlashingBalance in
  let! quotient := pure (udiv penaltyNumerator totalBalance) in
  let penalty := mul64 quotient increment in
  let! idx := read (ValidatorIndexByPubkey (Pubkey val)) in
  DecreaseBalance idx penalty.

(** The body of [for _, val := range vals]. *)
Fixpoint slashLoop (slot adjustedTotalSlashingBalance totalBalance : Z)
    (vals : list Validator) : M St unit :=
  match vals with
  | [] => pure (Ret tt)
  | val :: rest =>
      let slashableEpoch :=
        add64 (SlotToEpoch cs slot) (EpochsPerSlashingsVector cs) / 2 in
      if Slashed val && (slashableEpoch =? WithdrawableEpoch val) then
        let! _ := processSlash val adjustedTotalSlashingBalance totalBalance in
        slashLoop slot adjustedTotalSlashingBalance totalBalance rest
      else
        slashLoop slot adjustedTotalSlashingBalance totalBalance rest
  end.

(** The value bound to [adjustedTotalSlashingBalance]. *)
Definition adjustedTotalSlashingBalance (totalSlashings totalBalance : Z) : Z :=
  Z.min (mul64 totalSlashings (ProportionalSlashingMultiplier cs))
        totalBalance.

Definition processSlashings : M St unit :=
  let! totalBalance := read (GetTotalActiveBalances (SlotsPerEpoch cs)) in
  let! totalSlashings := read GetTotalSlashing in
  let adjusted := adjustedTotalSlashingBalance totalSlashings totalBalance in
  let! vals := read GetValidators in
  let! slot := read GetSlot in
  slashLoop slot adjusted totalBalance vals.

End StateProcessor.

(** ** A reference state *)

Module MemState.

Definition ErrSlotUnavailable : error := errorString "slot unavailable".
Definition ErrValidatorNotFound : error := errorString "validator not found".
Definition ErrIndexOutOfRange : error := errorString "index out of range".

(** The writes a state has gone through, oldest first. *)
Inductive Write : Type :=
| WDecreaseBalance (idx delta : Z)
| WUpdateSlashingAtIndex (index value : Z).

(** Modelled from the spec: the implementation behind [state.BeaconState]
    is not part of the sources.  The state holds the slot (which may be
    unavailable), the validator registry, the balances by validator index,
    the slashings vector, and the total active balance it reports (the
    spec does not say which validators count as active); it records the
    writes it performs. *)
Record t : Type := mk {
  slot : option Z;
  validators : list Validator;
  balances : list Z;
  slashings : list Z;
  totalActiveBalance : Z;
  writes : list Write
}.

(** Modelled from the spec: the slot is read unless the state has none. *)
Definition getSlot (st : t) : res Z :=
  match slot st with
  | Some s => Ret s
  | None => Raise ErrSlotUnavailable
  end.

(** Modelled from the spec: the total active balance of the state. *)
Definition getTotalActiveBalances (slotsPerEpoch : Z) (st : t) : res Z :=
  Ret (totalActiveBalance st).

(** Modelled from the spec: the current total of the slashings vector. *)
Definition getTotalSlashing (st : t) : res Z :=
  Ret (fold_left add64 (slashings st) 0).

(** Modelled from the spec: the full validator set. *)
Definition getValidators (st : t) : res (list Validator) :=
  Ret (validators st).

(** Modelled from the spec: the index of a validator is its position in
    the registry; an unknown key is an error. *)
Definition validatorIndexByPubkey (pk : Z) (st : t) : res Z :=
  match list_find (fun v => Pubkey v = pk) (validators st) with
  | Some (i, _) => Ret (Z.of_nat i)
  | None => Raise ErrValidatorNotFound
  end.

(** Modelled from the spec: the balance at the index is decreased,
    saturating at zero rather than underflowing; an index out of range is an
    error and leaves the state as it is. *)
Definition decreaseBalance (idx delta : Z) : M t unit := fun st =>
  if 0 <=? idx then
    match balances st !! Z.to_nat idx with
    | Some b =>
        (mk (slot st) (validators st)
            (<[Z.to_nat idx := b - Z.min b delta]> (balances st))
            (slashings st) (totalActiveBalance st)
            (writes st ++ [WDecreaseBalance idx delta]),
         Ret tt)
    | None => (st, Raise ErrIndexOutOfRange)
    end
  else (st, Raise ErrIndexOutOfRange).

(** Modelled from the spec: the entry of the slashings vector at the index
    is set to the value; an index out of range is an error and leaves the
    state as it is. *)
Definition updateSlashingAtIndex (index value : Z) : M t unit := fun st =>
  if (0 <=? index) && (index <? Z.of_nat (length (slashings st))) then
    (mk (slot st) (validators st) (balances st)
        (<[Z.to_nat index := value]> (slashings st))
        (totalActiveBalance st)
        (writes st ++ [WUpdateSlashingAtIndex index value]),
     Ret tt)
  else (st, Raise ErrIndexOutOfRange).

#[global] Instance beaconState : BeaconState t := {
  GetSlot := getSlot;
  GetTotalActiveBalances := getTotalActiveBalances;
  GetTotalSlashing := getTotalSlashing;
  GetValidators := getValidators;
  ValidatorIndexByPubkey := validatorIndexByPubkey;
  DecreaseBalance := decreaseBalance;
  UpdateSlashingAtIndex := updateSlashingAtIndex
}.

(** Modelled from the spec: [SlotToEpoch] is not part of the sources; the
    epoch of a slot is [slot / slotsPerEpoch], for a [slotsPerEpoch] that is
    not zero. *)
Definition chainSpec (slotsPerEpoch epochsPerSlashingsVector
    proportionalSlashingMultiplier effectiveBalanceIncrement : Z) : ChainSpec :=
  mkChainSpec slotsPerEpoch epochsPerSlashingsVector
    proportionalSlashingMultiplier effectiveBalanceIncrement
    (fun slot => slot / slotsPerEpoch).

End MemState.

(** ** The blob processor *)

(** [errgroup.Group]: [Wait] returns the first non-nil error in the order in
    which the tasks of the group return. *)
Module errgroup.

Definition Wait (returned : list (option error)) : option error :=
  head (omap id returned).

End errgroup.

(** Which of the two tasks started by [ProcessBlobs] returns first. *)
Inductive schedule : Type :=
| InclusionFirst
| ProofsFirst.

Section BlobProcessor.
Variable BlobSidecar : Type.

(** [datypes.BlobSidecars]: a slice of pointers, any of which may be nil.
    The pointer to the batch itself is taken not to be nil. *)
Record BlobSidecars : Type := mkBlobSidecars {
  Sidecars : list (option BlobSidecar)
}.

(** The interface [core.AvailabilityStore]. *)
Class AvailabilityStore (Avs : Type) : Type := {
  Persist : Z -> BlobSidecars -> M Avs unit
}.

Context {Avs : Type} `{!AvailabilityStore Avs}.

(** [types.VerifyKZGInclusionProof] and [BlobVerifier.VerifyKZGProofs]. *)
Variable VerifyKZGInclusionProof : BlobSidecar -> option error.
Variable VerifyKZGProofs : BlobSidecars -> option error.

(** The function mapped over the sidecars. *)
Definition verifySidecar (sidecar : option BlobSidecar) : option error :=
  match sidecar with
  | None => Some ErrAttemptedToVerifyNilSidecar
  | Some sc => VerifyKZGInclusionProof sc
  end.

(** The first task: [iter.Map] applies the function to every sidecar and
    returns the results in order. *)
Definition verifyInclusionProofs (sidecars : BlobSidecars) : option error :=
  match Join (map verifySidecar (Sidecars sidecars)) with
  | Some err => Some err
  | None => None
  end.

Definition ProcessBlobs (sched : schedule) (slot : Z)
    (sidecars : BlobSidecars) : M Avs unit :=
  let inclusion := verifyInclusionProofs sidecars in
  let proofs := VerifyKZGProofs sidecars in
  let returned :=
    match sched with
    | InclusionFirst => [inclusion; proofs]
    | ProofsFirst => [proofs; inclusion]
    end in
  match errgroup.Wait returned with
  | Some err => pure (Raise err)
  | None => Persist slot sidecars
  end.

End BlobProcessor.

Arguments Sidecars {BlobSidecar} _.
Arguments mkBlobSidecars {BlobSidecar} _.
Arguments Persist {BlobSidecar Avs _} _ _ _.
Arguments verifySidecar {BlobSidecar} _ _.
Arguments verifyInclusionProofs {BlobSidecar} _ _.
Arguments ProcessBlobs {BlobSidecar Avs _} _ _ _ _ _ _.

(** ** A reference availability store *)

Module MemAvs.

(** Modelled from the spec: the implementation behind
    [core.AvailabilityStore] is not part of the sources.  The store is
    keyed by slot and holds the batch persisted under it; a write fails
    when the store is unavailable.  It records every call of [Persist]. *)
Record t (B : Type) : Type := mk {
  stored : gmap Z (BlobSidecars B);
  unavailable : option error;
  calls : list (Z * BlobSidecars B)
}.
Global Arguments mk {B} _ _ _.
Global Arguments stored {B} _.
Global Arguments unavailable {B} _.
Global Arguments calls {B} _.

(** Modelled from the spec: the batch is stored under the slot, unless the
    store is unavailable. *)
Definition persist {B} (slot : Z) (sidecars : BlobSidecars B) : M (t B) unit :=
  fun avs =>
    match unavailable avs with
    | Some err =>
        (mk (stored avs) (unavailable avs) (calls avs ++ [(slot, sidecars)]),
         Raise err)
    | None =>
        (mk (<[slot := sidecars]> (stored avs)) None
            (calls avs ++ [(slot, sidecars)]),
         Ret tt)
    end.

#[global] Instance availabilityStore {B} : AvailabilityStore B (t B) := {
  Persist := persist
}.

End MemAvs.

(** ** Notions used by the statements *)

(** The value of the local [penalty] of [processSlash] when neither
    division panics. *)
Definition penalty (cs : ChainSpec) (val : Validator)
    (adjustedTotalSlashingBalance totalBalance : Z) : Z :=
  mul64 (mul64 (EffectiveBalance val / EffectiveBalanceIncrement cs)
               adjustedTotalSlashingBalance
         / totalBalance)
        (EffectiveBalanceIncrement cs).

(** The epoch compared with [WithdrawableEpoch] in the loop of
    [processSlashings]. *)
Definition slashableEpoch (cs : ChainSpec) (slot : Z) : Z :=
  add64 (SlotToEpoch cs slot) (EpochsPerSlashingsVector cs) / 2.

(** The condition under which the loop calls [processSlash]. *)
Definition slashable (cs : ChainSpec) (slot : Z) (val : Validator) : Prop :=
  Slashed val = true /\ WithdrawableEpoch val = slashableEpoch cs slot.

#[global] Instance slashable_dec cs slot val : Decision (slashable cs slot val).
Proof. unfold slashable. apply _. Defined.

(** Over the reference state: the writes that calls of [processSlash] for
    the validators [done], in order, record. *)
Definition recorded (cs : ChainSpec) (st : MemState.t)
    (adjusted totalBalance : Z)
    (done : list Validator) (ws : list MemState.Write) : Prop :=
  Forall2 (fun val w =>
             exists i u,
               list_find (fun v => Pubkey v = Pubkey val) (MemState.validators st)
               = Some (i, u)
               /\ w = MemState.WDecreaseBalance (Z.of_nat i)
                        (penalty cs val adjusted totalBalance))
          done ws.

(** [reflects target err]: [err] is [target] or wraps, at some depth, an
    error that is. *)
Inductive reflects (target : error) : error -> Prop :=
| reflects_here : reflects target target
| reflects_joined errs e :
    e ∈ errs -> reflects target e -> reflects target (joinError errs).

(** [decreasedFrom st st']: [st'] is what a sequence of calls of the
    accessor's [DecreaseBalance], and of nothing else that writes, makes of
    [st]. *)
Inductive decreasedFrom {St : Type} `{!BeaconState St} : St -> St -> Prop :=
| decreased_none st : decreasedFrom st st
| decreased_more st idx delta st1 r st2 :
    DecreaseBalance idx delta st = (st1, r) ->
    decreasedFrom st1 st2 ->
    decreasedFrom st st2.

(** Running [processSlash] over a list of validators, stopping at the first
    one that does not return nil. *)
Fixpoint slashEach {St : Type} `{!BeaconState St} (cs : ChainSpec)
    (adjusted totalBalance : Z) (vals : list Validator) : M St unit :=
  match vals with
  | [] => pure (Ret tt)
  | val :: rest =>
      let! _ := processSlash cs val adjusted totalBalance in
      slashEach cs adjusted totalBalance rest
  end.

(** ** Fixtures *)

Module Fixture.

Definition gwei : Z := 1000000000.

(** Chain parameters: 32 slots per epoch, a slashings vector of 4 epochs,
    multiplier 3, increment 1e9 Gwei. *)
Definition cs : ChainSpec := MemState.chainSpec 32 4 3 gwei.

(** At slot 64 the epoch is 2, the slashable epoch (2 + 4) / 2 = 3. *)
Definition alice : Validator := mkValidator 11 (32 * gwei) true 3.
Definition bob : Validator := mkValidator 22 (32 * gwei) false 3.
Definition carol : Validator := mkValidator 33 (16 * gwei) true 3.
Definition dave : Validator := mkValidator 44 (32 * gwei) true 4.

Definition st : MemState.t :=
  MemState.mk (Some 64) [alice; bob; carol; dave]
    [40 * gwei; 40 * gwei; 5 * gwei; 40 * gwei]
    [4 * gwei; 0; 7; 4 * gwei] (96 * gwei) [].

(** The same state with the balances of carol and dave missing. *)
Definition st_short : MemState.t :=
  MemState.mk (Some 64) [alice; bob; carol; dave]
    [40 * gwei; 40 * gwei]
    [4 * gwei; 0; 7; 4 * gwei] (96 * gwei) [].

(** [st_short] once alice has been penalized. *)
Definition st_short_alice : MemState.t :=
  MemState.mk (Some 64) [alice; bob; carol; dave]
    [32 * gwei; 40 * gwei]
    [4 * gwei; 0; 7; 4 * gwei] (96 * gwei)
    [MemState.WDecreaseBalance 0 (8 * gwei)].

(** [st] after the pass: alice loses 8e9 Gwei and carol 4e9 Gwei. *)
Definition st_slashed : MemState.t :=
  MemState.mk (Some 64) [alice; bob; carol; dave]
    [32 * gwei; 40 * gwei; 1 * gwei; 40 * gwei]
    [4 * gwei; 0; 7; 4 * gwei] (96 * gwei)
    [MemState.WDecreaseBalance 0 (8 * gwei);
     MemState.WDecreaseBalance 2 (4 * gwei)].

(** [st] after the reset: at slot 64 the epoch is 2 and the index
    (2 + 1) mod 4 = 3. *)
Definition st_reset : MemState.t :=
  MemState.mk (Some 64) [alice; bob; carol; dave]
    [40 * gwei; 40 * gwei; 5 * gwei; 40 * gwei]
    [4 * gwei; 0; 7; 0] (96 * gwei)
    [MemState.WUpdateSlashingAtIndex 3 0].

(** One slot per epoch and a slashings vector of 3 epochs, at the last
    slot a [uint64] can hold. *)
Definition cs_dense : ChainSpec := MemState.chainSpec 1 3 3 gwei.
Definition st_last : MemState.t :=
  MemState.mk (Some (2 ^ 64 - 1)) [] [] [5; 6; 7] 0 [].

(** The same state with no active balance. *)
Definition st_empty : MemState.t :=
  MemState.mk (Some 64) [alice; bob; carol; dave]
    [40 * gwei; 40 * gwei; 5 * gwei; 40 * gwei]
    [4 * gwei; 0; 7; 4 * gwei] 0 [].

Definition batch : BlobSidecars Z := mkBlobSidecars [Some 1; Some 2; Some 3].
Definition batch_nil : BlobSidecars Z := mkBlobSidecars [Some 1; None; Some 3].

Definition ErrInclusion : error := errorString "inclusion proof mismatch".
Definition ErrProofs : error := errorString "kzg proof mismatch".

Definition accept_all : Z -> option error := fun _ => None.
Definition reject_odd : Z -> option error :=
  fun sc => if Z.odd sc then Some ErrInclusion else None.
Definition proofs_ok : BlobSidecars Z -> option error := fun _ => None.
Definition proofs_bad : BlobSidecars Z -> option error := fun _ => Some ErrProofs.

Definition avs : MemAvs.t Z := MemAvs.mk ∅ None [].
Definition avs_down : MemAvs.t Z :=
  MemAvs.mk ∅ (Some (errorString "store unavailable")) [].

End Fixture.


(** ** Logging *)

(** What a logger is handed: the level, the message and the error passed
    under the key ["error"]. *)
Inductive LogLevel : Type :=
| LevelError
| LevelWarn.

Record LogEntry : Type := mkLogEntry {
  logLevel : LogLevel;
  logMessage : string;
  logError : error
}.

(** ** The pre-block handler *)

Module preblock.

Section Handler.
Variables Ctx Request Block Sidecars Version : Type.

(** The fields of [abci.Config] the handler reads. *)
Record Config : Type := mkConfig {
  BeaconBlockPosition : Z;
  BlobSidecarsBlockPosition : Z
}.

(** The methods of [blockchain.Service] the handler calls.  They act on
    the state behind the [sdk.Context] they are given. *)
Record ChainService : Type := mkChainService {
  ProcessSlot : M Ctx unit;
  ProcessBeaconBlock : Block -> Sidecars -> M Ctx unit;
  PostBlockProcess : Block -> M Ctx unit;
  ActiveForkVersionForSlot : Z -> Version
}.

(** The request and the functions of package [abcitypes] that read it. *)
Class ABCI : Type := {
  Height : Request -> Z;
  ReadOnlyBeaconBlockFromABCIRequest : Request -> Z -> Version -> res Block;
  GetBlobSideCars : Request -> Z -> res Sidecars
}.

(** [BeaconPreBlockHandler]; a nil [nextHandler] is [None].  The logger is
    the list of entries in the state below. *)
Record BeaconPreBlockHandler : Type := mkHandler {
  cfg : Config;
  chainService : ChainService;
  nextHandler : option (Request -> M Ctx unit)
}.

(** The state the handler runs on: the state behind the context, and what
    the handler's logger has been handed, oldest first. *)
Record World : Type := mkWorld {
  ctx : Ctx;
  logged : list LogEntry
}.

(** A call that is given the context. *)
Definition withCtx {A : Type} (m : M Ctx A) : M World A := fun w =>
  let (c, r) := m (ctx w) in (mkWorld c (logged w), r).

Definition logWith (level : LogLevel) (msg : string) (err : error) : M World unit :=
  fun w => (mkWorld (ctx w) (logged w ++ [mkLogEntry level msg err]), Ret tt).

Context `{!ABCI}.

Definition NewBeaconPreBlockHandler (cfg : Config) (chainService : ChainService)
    (nextHandler : option (Request -> M Ctx unit)) : BeaconPreBlockHandler :=
  mkHandler cfg chainService nextHandler.

Definition callNextHandler (h : BeaconPreBlockHandler) (req : Request) :
    M World unit :=
  match nextHandler h with
  | None => pure (Ret tt)
  | Some next => withCtx (next req)
  end.

(** [cacheCtx, write := ctx.CacheContext()] followed by the call of
    [ProcessBeaconBlock] on [cacheCtx]: the call works on a branch of the
    context; [write], called when it returns nil, makes the branch the
    context; otherwise the branch is dropped and a warning logged. *)
Definition processCached (h : BeaconPreBlockHandler) (blk : Block)
    (blobSideCars : Sidecars) : M World unit := fun w =>
  match ProcessBeaconBlock (chainService h) blk blobSideCars (ctx w) with
  | (cacheCtx, Ret _) => (mkWorld cacheCtx (logged w), Ret tt)
  | (_, Raise err) =>
      logWith LevelWarn "failed to receive beacon block" err w
  | (_, Panic p) => (w, Panic p)
  end.

Definition PreBlocker (h : BeaconPreBlockHandler) (req : Request) :
    M World unit := fun w =>
  match withCtx (ProcessSlot (chainService h)) w with
  | (w1, Raise err) =>
      (fst (logWith LevelError "failed to process slot" err w1), Raise err)
  | (w1, Panic p) => (w1, Panic p)
  | (w1, Ret _) =>
      (let! blk := pure (ReadOnlyBeaconBlockFromABCIRequest req
                           (BeaconBlockPosition (cfg h))
                           (ActiveForkVersionForSlot (chainService h)
                              (wrap64 (Height req)))) in
       let! blobSideCars := pure (GetBlobSideCars req
                                    (BlobSidecarsBlockPosition (cfg h))) in
       let! _ := processCached h blk blobSideCars in
       let! _ := withCtx (PostBlockProcess (chainService h) blk) in
       callNextHandler h req) w1
  end.

End Handler.

Arguments mkConfig _ _ : clear implicits.
Arguments BeaconBlockPosition _ : clear implicits.
Arguments BlobSidecarsBlockPosition _ : clear implicits.
Arguments mkChainService {Ctx Block Sidecars Version} _ _ _ _.
Arguments ProcessSlot {Ctx Block Sidecars Version} _ _.
Arguments ProcessBeaconBlock {Ctx Block Sidecars Version} _ _ _ _.
Arguments PostBlockProcess {Ctx Block Sidecars Version} _ _ _.
Arguments ActiveForkVersionForSlot {Ctx Block Sidecars Version} _ _.
Arguments Height {Request Block Sidecars Version _} _.
Arguments ReadOnlyBeaconBlockFromABCIRequest {Request Block Sidecars Version _} _ _ _.
Arguments GetBlobSideCars {Request Block Sidecars Version _} _ _.
Arguments mkHandler {Ctx Request Block Sidecars Version} _ _ _.
Arguments cfg {Ctx Request Block Sidecars Version} _.
Arguments chainService {Ctx Request Block Sidecars Version} _.
Arguments nextHandler {Ctx Request Block Sidecars Version} _.
Arguments mkWorld {Ctx} _ _.
Arguments ctx {Ctx} _.
Arguments logged {Ctx} _.
Arguments withCtx {Ctx A} _ _.
Arguments logWith {Ctx} _ _ _ _.
Arguments NewBeaconPreBlockHandler {Ctx Request Block Sidecars Version} _ _ _.
Arguments callNextHandler {Ctx Request Block Sidecars Version} _ _ _.
Arguments processCached {Ctx Request Block Sidecars Version} _ _ _ _.
Arguments PreBlocker {Ctx Request Block Sidecars Version _} _ _ _.

End preblock.

(** ** The staking service *)

Module staking.

Section Service.
Variables BaseService ValsetChangeProvider : Type.

(** [Service]; a nil [vcp] is [None]. *)
Record Service : Type := mkService {
  base : BaseService;
  vcp : option ValsetChangeProvider
}.

(** An option is handed the service under construction, may change it,
    and returns an error or nil. *)
Definition Option : Type := Service -> Service * option error.

(** The loop of [NewService]: an option that fails is logged and the loop
    goes on. *)
Fixpoint applyOptions (opts : list Option) (s : Service)
    (logged : list LogEntry) : Service * list LogEntry :=
  match opts with
  | [] => (s, logged)
  | opt :: rest =>
      match opt s with
      | (s1, Some err) =>
          applyOptions rest s1
            (logged ++ [mkLogEntry LevelError "Failed to apply option" err])
      | (s1, None) => applyOptions rest s1 logged
      end
  end.

Definition NewService (base : BaseService) (opts : list Option) :
    Service * list LogEntry :=
  applyOptions opts (mkService base None) [].

End Service.

Arguments mkService {BaseService ValsetChangeProvider} _ _.
Arguments base {BaseService ValsetChangeProvider} _.
Arguments vcp {BaseService ValsetChangeProvider} _.
Arguments applyOptions {BaseService ValsetChangeProvider} _ _ _.
Arguments NewService {BaseService ValsetChangeProvider} _ _.

End staking.

(** ** The options of the log processor *)

Module logs.

Section Options.
Variables Eth1Client Handlers Logger Others : Type.

(** [Processor]: the three fields the options set, and whatever else the
    type holds. *)
Record Processor : Type := mkProcessor {
  eth1Client : Eth1Client;
  handlers : Handlers;
  logger : Logger;
  others : Others
}.

Definition Option : Type := Processor -> Processor * option error.

Definition WithEthClient (eth1Client : Eth1Client) : Option := fun p =>
  (mkProcessor eth1Client (handlers p) (logger p) (others p), None).

Definition WithHandlers (handlers : Handlers) : Option := fun p =>
  (mkProcessor (eth1Client p) handlers (logger p) (others p), None).

Definition WithLogger (logger : Logger) : Option := fun p =>
  (mkProcessor (eth1Client p) (handlers p) logger (others p), None).

End Options.

Arguments mkProcessor {Eth1Client Handlers Logger Others} _ _ _ _.
Arguments eth1Client {Eth1Client Handlers Logger Others} _.
Arguments handlers {Eth1Client Handlers Logger Others} _.
Arguments logger {Eth1Client Handlers Logger Others} _.
Arguments others {Eth1Client Handlers Logger Others} _.
Arguments WithEthClient {Eth1Client Handlers Logger Others} _ _.
Arguments WithHandlers {Eth1Client Handlers Logger Others} _ _.
Arguments WithLogger {Eth1Client Handlers Logger Others} _ _.

End logs.

(** ** Scenarios *)

Module Scenario.

(** A context that lists what has been written to it; a request is its
    height, a block its number, the sidecars theirs. *)
#[global] Instance abci : preblock.ABCI Z Z (list Z) Z := {
  preblock.Height := fun req => req;
  preblock.ReadOnlyBeaconBlockFromABCIRequest := fun req _ _ =>
    if req <? 0 then Raise (errorString "no beacon block") else Ret req;
  preblock.GetBlobSideCars := fun req _ =>
    if req =? 0 then Raise (errorString "no sidecars") else Ret [req]
}.

(** Blocks with an odd number are rejected after a partial write. *)
Definition chain : preblock.ChainService (list string) Z (list Z) Z :=
  preblock.mkChainService
    (fun c => (c ++ ["slot"%string], Ret tt))
    (fun blk _ c =>
       if Z.even blk then (c ++ ["block"%string], Ret tt)
       else (c ++ ["half a block"%string], Raise (errorString "bad block")))
    (fun _ c => (c ++ ["post"%string], Ret tt))
    (fun _ => 0).

(** A chain whose slot processing fails. *)
Definition chain_stuck : preblock.ChainService (list string) Z (list Z) Z :=
  preblock.mkChainService
    (fun c => (c, Raise (errorString "slot failed")))
    (fun _ _ c => (c ++ ["block"%string], Ret tt))
    (fun _ c => (c ++ ["post"%string], Ret tt))
    (fun _ => 0).

(** A chain whose post-block processing fails. *)
Definition chain_post : preblock.ChainService (list string) Z (list Z) Z :=
  preblock.mkChainService
    (fun c => (c ++ ["slot"%string], Ret tt))
    (fun _ _ c => (c ++ ["block"%string], Ret tt))
    (fun _ c => (c, Raise (errorString "post failed")))
    (fun _ => 0).

Definition next : Z -> M (list string) unit :=
  fun _ c => (c ++ ["next"%string], Ret tt).

Definition handler : preblock.BeaconPreBlockHandler (list string) Z Z (list Z) Z :=
  preblock.NewBeaconPreBlockHandler (preblock.mkConfig 0 1) chain (Some next).

Definition handler_last : preblock.BeaconPreBlockHandler (list string) Z Z (list Z) Z :=
  preblock.NewBeaconPreBlockHandler (preblock.mkConfig 0 1) chain None.

Definition handler_stuck : preblock.BeaconPreBlockHandler (list string) Z Z (list Z) Z :=
  preblock.NewBeaconPreBlockHandler (preblock.mkConfig 0 1) chain_stuck (Some next).

Definition handler_post : preblock.BeaconPreBlockHandler (list string) Z Z (list Z) Z :=
  preblock.NewBeaconPreBlockHandler (preblock.mkConfig 0 1) chain_post (Some next).

Definition world : preblock.World (list string) := preblock.mkWorld [] [].

(** Options of the staking service: one sets the provider, one fails
    after setting it, one fails without touching the service. *)
Definition setProvider (p : Z) : staking.Option Z Z :=
  fun s => (staking.mkService (staking.base s) (Some p), None).
Definition setThenFail (p : Z) : staking.Option Z Z :=
  fun s => (staking.mkService (staking.base s) (Some p),
            Some (errorString "late failure")).
Definition justFail : staking.Option Z Z :=
  fun s => (s, Some (errorString "failure")).

End Scenario.

(** ** Boundary cases *)

Module Boundary.

(** A validator of 4096e9 Gwei in a state whose slashings vector totals
    4e15 Gwei, with a total active balance of 1e16 Gwei: the product of the
    balance units and the adjusted total exceeds [2^64]. *)
Definition heavy : Validator := mkValidator 11 4096000000000 true 3.

Definition st_heavy : MemState.t :=
  MemState.mk (Some 64) [heavy] [5000000000000]
    [4000000000000000; 0; 0; 0] 10000000000000000 [].

Definition st_heavy_slashed : MemState.t :=
  MemState.mk (Some 64) [heavy] [4594000000000]
    [4000000000000000; 0; 0; 0] 10000000000000000
    [MemState.WDecreaseBalance 0 406000000000].

(** At the last slot a [uint64] holds, with one slot per epoch and a
    slashings vector of 3 epochs, the sum of the epoch and the length wraps
    to 2: the slashable epoch is 1, where half the sum over the integers is
    [2^63 + 1]. *)
Definition early : Validator := mkValidator 11 32000000000 true 1.
Definition late : Validator :=
  mkValidator 22 32000000000 true 9223372036854775809.

Definition st_wrap : MemState.t :=
  MemState.mk (Some (2 ^ 64 - 1)) [early; late]
    [40000000000; 40000000000] [4000000000; 0; 4000000000] 96000000000 [].

Definition st_wrap_slashed : MemState.t :=
  MemState.mk (Some (2 ^ 64 - 1)) [early; late]
    [32000000000; 40000000000] [4000000000; 0; 4000000000] 96000000000
    [MemState.WDecreaseBalance 0 8000000000].

(** Two validators under one key, the first not slashed, the second
    slashed and withdrawable at the slashable epoch 3 of slot 64. *)
Definition st_twins : MemState.t :=
  MemState.mk (Some 64)
    [mkValidator 11 32000000000 false 3; mkValidator 11 32000000000 true 3]
    [40000000000; 40000000000] [4000000000; 0; 7; 4000000000] 96000000000 [].

Definition st_twins_slashed : MemState.t :=
  MemState.mk (Some 64)
    [mkValidator 11 32000000000 false 3; mkValidator 11 32000000000 true 3]
    [32000000000; 40000000000] [4000000000; 0; 7; 4000000000] 96000000000
    [MemState.WDecreaseBalance 0 8000000000].

(** Chain parameters with a slashings vector of length 0. *)
Definition cs_novector : ChainSpec := MemState.chainSpec 32 0 3 1000000000.

End Boundary.

(** ** Basic facts *)

Lemma wrap64_range z : 0 <= wrap64 z < modulus64.
Proof. unfold wrap64, modulus64. apply Z.mod_pos_bound. lia. Qed.

Lemma wrap64_small z : 0 <= z < modulus64 -> wrap64 z = z.
Proof. intros Hz. unfold wrap64. apply Z.mod_small. exact Hz. Qed.

Lemma mul64_nonneg a b : 0 <= mul64 a b.
Proof. unfold mul64. pose proof (wrap64_range (a * b)). lia. Qed.

Lemma udiv_nonzero a b : b <> 0 -> udiv a b = Ret (a / b).
Proof. intros Hb. unfold udiv. destruct (Z.eqb_spec b 0); [contradiction | reflexivity]. Qed.

Lemma udiv_zero a : udiv a 0 = Panic DivideByZero.
Proof. reflexivity. Qed.

Lemma umod_nonzero a b : b <> 0 -> umod a b = Ret (a mod b).
Proof. intros Hb. unfold umod. destruct (Z.eqb_spec b 0); [contradiction | reflexivity]. Qed.

(** ** The state processor over any implementation of the state *)

Section StateProcessorFacts.
Context {St : Type} `{!BeaconState St}.
Variable cs : ChainSpec.

Lemma processSlash_nonzero val adjusted totalBalance st :
  EffectiveBalanceIncrement cs <> 0 ->
  totalBalance <> 0 ->
  processSlash cs val adjusted totalBalance st =
    match ValidatorIndexByPubkey (Pubkey val) st with
    | Ret idx => DecreaseBalance idx (penalty cs val adjusted totalBalance) st
    | Raise e => (st, Raise e)
    | Panic p => (st, Panic p)
    end.
Proof.
  intros Hinc Htot. unfold processSlash, seq, pure, read.
  rewrite (udiv_nonzero _ _ Hinc), (udiv_nonzero _ _ Htot).
  unfold penalty.
  destruct (ValidatorIndexByPubkey (Pubkey val) st); [|reflexivity..].
  destruct (DecreaseBalance _ _ st) as [st1 [[]| |]]; reflexivity.
Qed.

Lemma processSlash_zero_total val adjusted st :
  processSlash cs val adjusted 0 st = (st, Panic DivideByZero).
Proof.
  unfold processSlash, seq, pure.
  destruct (udiv (EffectiveBalance val) (EffectiveBalanceIncrement cs)) eqn:Hd.
  - reflexivity.
  - unfold udiv in Hd. destruct (_ =? 0); discriminate.
  - unfold udiv in Hd. destruct (_ =? 0); [|discriminate].
    injection Hd as <-. reflexivity.
Qed.

(** The test of the loop, as a proposition. *)
Lemma slashable_test slot val :
  Slashed val && (add64 (SlotToEpoch cs slot) (EpochsPerSlashingsVector cs) / 2
                  =? WithdrawableEpoch val) = true
  <-> slashable cs slot val.
Proof.
  unfold slashable, slashableEpoch.
  rewrite andb_true_iff, Z.eqb_eq. intuition congruence.
Qed.

Lemma slashLoop_cons_yes slot adjusted totalBalance val rest :
  slashable cs slot val ->
  slashLoop cs slot adjusted totalBalance (val :: rest) =
    seq (processSlash cs val adjusted totalBalance)
        (fun _ => slashLoop cs slot adjusted totalBalance rest).
Proof.
  intros Hs. apply slashable_test in Hs. simpl. rewrite Hs. reflexivity.
Qed.

Lemma slashLoop_cons_no slot adjusted totalBalance val rest :
  ~ slashable cs slot val ->
  slashLoop cs slot adjusted totalBalance (val :: rest) =
    slashLoop cs slot adjusted totalBalance rest.
Proof.
  intros Hs. rewrite <- slashable_test in Hs. simpl.
  destruct (_ && _); [contradiction Hs; reflexivity | reflexivity].
Qed.

(** The loop calls [processSlash] for the validators that pass the test,
    in the order of the registry, and for no other. *)
Lemma slashLoop_filter slot adjusted totalBalance vals :
  slashLoop cs slot adjusted totalBalance vals =
    slashEach cs adjusted totalBalance (filter (slashable cs slot) vals).
Proof.
  induction vals as [|val rest IH]; [reflexivity|].
  destruct (decide (slashable cs slot val)) as [Hs|Hs].
  - rewrite slashLoop_cons_yes, filter_cons_True by exact Hs.
    simpl. rewrite IH. reflexivity.
  - rewrite slashLoop_cons_no, filter_cons_False by exact Hs. exact IH.
Qed.

Lemma slashLoop_app slot adjusted totalBalance pre post st st1 :
  slashLoop cs slot adjusted totalBalance pre st = (st1, Ret tt) ->
  slashLoop cs slot adjusted totalBalance (pre ++ post) st =
    slashLoop cs slot adjusted totalBalance post st1.
Proof.
  revert st. induction pre as [|val rest IH]; intros st Hpre.
  - simpl in Hpre. unfold pure in Hpre. injection Hpre as ->. reflexivity.
  - destruct (decide (slashable cs slot val)) as [Hs|Hs].
    + rewrite <- app_comm_cons. rewrite slashLoop_cons_yes in * by exact Hs.
      unfold seq in *.
      destruct (processSlash cs val adjusted totalBalance st) as [st2 [[]| |]];
        [apply IH; exact Hpre | discriminate..].
    + rewrite <- app_comm_cons. rewrite slashLoop_cons_no in * by exact Hs.
      apply IH; exact Hpre.
Qed.

(** With the four reads succeeding, the pass is the loop. *)
Lemma processSlashings_reads st totalBalance totalSlashings vals slot :
  GetTotalActiveBalances (SlotsPerEpoch cs) st = Ret totalBalance ->
  GetTotalSlashing st = Ret totalSlashings ->
  GetValidators st = Ret vals ->
  GetSlot st = Ret slot ->
  processSlashings cs st =
    slashLoop cs slot
      (adjustedTotalSlashingBalance cs totalSlashings totalBalance)
      totalBalance vals st.
Proof.
  intros Hb Hs Hv Hsl. unfold processSlashings, seq, read.
  rewrite Hb, Hs, Hv, Hsl. reflexivity.
Qed.

End StateProcessorFacts.

(** ** The single write path *)

Section WritePath.
Context {St : Type} `{!BeaconState St}.
Variable cs : ChainSpec.

Lemma processSlash_decreases val adjusted totalBalance st st' r :
  processSlash cs val adjusted totalBalance st = (st', r) ->
  decreasedFrom st st'.
Proof.
  unfold processSlash, seq, pure, read.
  destruct (udiv (EffectiveBalance val) (EffectiveBalanceIncrement cs))
    as [units| |]; [|intros [= <- <-]; constructor..].
  destruct (udiv _ totalBalance) as [quotient| |];
    [|intros [= <- <-]; constructor..].
  destruct (ValidatorIndexByPubkey (Pubkey val) st) as [idx| |];
    [|intros [= <- <-]; constructor..].
  destruct (DecreaseBalance idx _ st) as [st1 r1] eqn:Hdec.
  intros Hrun.
  assert (st' = st1) as -> by (destruct r1 as [[]| |]; congruence).
  eapply decreased_more; [exact Hdec | constructor].
Qed.

Lemma decreasedFrom_trans (st1 st2 st3 : St) :
  decreasedFrom st1 st2 -> decreasedFrom st2 st3 -> decreasedFrom st1 st3.
Proof.
  induction 1 as [|st idx delta st1 r st2 Hdec _ IH]; [tauto|].
  intros H3. eapply decreased_more; [exact Hdec | exact (IH H3)].
Qed.

Lemma slashLoop_decreases slot adjusted totalBalance vals st st' r :
  slashLoop cs slot adjusted totalBalance vals st = (st', r) ->
  decreasedFrom st st'.
Proof.
  revert st. induction vals as [|val rest IH]; intros st.
  - intros [= <- <-]. constructor.
  - simpl. destruct (_ && _); [|apply IH].
    unfold seq.
    destruct (processSlash cs val adjusted totalBalance st) as [st1 r1] eqn:Hstep.
    apply processSlash_decreases in Hstep. intros Hrun.
    apply (decreasedFrom_trans st st1 st' Hstep).
    destruct r1 as [[]| |]; [apply IH; exact Hrun|..];
      injection Hrun as <- <-; constructor.
Qed.

(** Whatever the state implementation and the outcome, the state the pass
    leaves is reached through [DecreaseBalance] alone. *)
Lemma processSlashings_decreases st st' r :
  processSlashings cs st = (st', r) -> decreasedFrom st st'.
Proof.
  unfold processSlashings, seq, read.
  destruct (GetTotalActiveBalances _ st); [|intros [= <- <-]; constructor..].
  destruct (GetTotalSlashing st); [|intros [= <- <-]; constructor..].
  destruct (GetValidators st); [|intros [= <- <-]; constructor..].
  destruct (GetSlot st); [|intros [= <- <-]; constructor..].
  apply slashLoop_decreases.
Qed.

End WritePath.

(** ** The penalty *)

Lemma penalty_no_overflow cs val adjusted totalBalance :
  0 < EffectiveBalanceIncrement cs ->
  0 <= EffectiveBalance val < 2 ^ 64 ->
  0 <= adjusted <= totalBalance ->
  0 < totalBalance ->
  EffectiveBalance val / EffectiveBalanceIncrement cs * adjusted < 2 ^ 64 ->
  penalty cs val adjusted totalBalance =
    EffectiveBalance val / EffectiveBalanceIncrement cs * adjusted
      / totalBalance * EffectiveBalanceIncrement cs
  /\ penalty cs val adjusted totalBalance <= EffectiveBalance val.
Proof.
  intros Hinc Heb Hadj Htot Hnum. unfold penalty, mul64.
  set (inc := EffectiveBalanceIncrement cs) in *.
  set (units := EffectiveBalance val / inc) in *.
  assert (0 <= units) as Hu by (apply Z.div_pos; lia).
  assert (units * inc <= EffectiveBalance val) as Hui.
  { unfold units. rewrite Z.mul_comm. apply Z.mul_div_le. lia. }
  rewrite (wrap64_small (units * adjusted)) by (unfold modulus64; nia).
  assert (0 <= units * adjusted / totalBalance <= units) as Hq.
  { split; [apply Z.div_pos; nia|].
    apply Z.div_le_upper_bound; nia. }
  rewrite wrap64_small by (unfold modulus64; nia).
  split; [reflexivity | nia].
Qed.

(** C1, as amended.  For a validator passed to [processSlash] (with neither
    divisor zero and the validator's index resolved), the penalty is
    [((effectiveBalance / increment) * adjustedTotalSlashingBalance /
    totalActiveBalance) * increment]: floor divisions, the division by the
    total before the final multiplication, the two products being [uint64]
    products; and the call is exactly the accessor's [DecreaseBalance] at the
    validator's index with that penalty.  When the first product fits in 64
    bits (and the adjusted balance is at most the total, as the pass makes
    it), no product wraps and the penalty is the same expression over the
    integers. *)
Theorem processSlash_penalty {St : Type} `{!BeaconState St}
    (cs : ChainSpec) (val : Validator) (adjusted totalBalance : Z)
    (st : St) (idx : Z) :
  EffectiveBalanceIncrement cs <> 0 ->
  totalBalance <> 0 ->
  ValidatorIndexByPubkey (Pubkey val) st = Ret idx ->
  let increment := EffectiveBalanceIncrement cs in
  let balanceUnits := EffectiveBalance val / increment in
  let penaltyNumerator := (balanceUnits * adjusted) mod 2 ^ 64 in
  let amount := (penaltyNumerator / totalBalance * increment) mod 2 ^ 64 in
  processSlash cs val adjusted totalBalance st = DecreaseBalance idx amount st
  /\ (0 < increment ->
      0 <= EffectiveBalance val < 2 ^ 64 ->
      0 <= adjusted <= totalBalance ->
      balanceUnits * adjusted < 2 ^ 64 ->
      amount = balanceUnits * adjusted / totalBalance * increment).
Proof.
  intros Hinc Htot Hidx. cbv zeta. split.
  - rewrite processSlash_nonzero by assumption. rewrite Hidx. reflexivity.
  - intros Hpos Heb Hadj Hnum.
    apply (penalty_no_overflow cs val adjusted totalBalance); lia.
Qed.

Lemma processSlash_penalty_witness :
  EffectiveBalanceIncrement Fixture.cs <> 0
  /\ 96000000000 <> 0
  /\ ValidatorIndexByPubkey (Pubkey Fixture.alice) Fixture.st = Ret 0
  /\ processSlash Fixture.cs Fixture.alice 24000000021 96000000000 Fixture.st
     = DecreaseBalance 0 8000000000 Fixture.st.
Proof.
  split; [vm_compute; discriminate|].
  split; [lia|].
  split; [reflexivity|].
  refine (proj1 (processSlash_penalty Fixture.cs Fixture.alice
                   24000000021 96000000000 Fixture.st 0 _ _ _)).
  - vm_compute; discriminate.
  - lia.
  - reflexivity.
Defined.

(** C1, as stated, fails: in a pass over a state with a validator of
    4096e9 Gwei, 4e15 Gwei in the slashings vector and a total active
    balance of 1e16 Gwei, the adjusted total is the total active balance and
    the product [4096 * 1e16] wraps; the balance is decreased by 406e9
    Gwei, where the expression over the integers is 4096e9 Gwei. *)
Lemma penalty_wraps_in_pass :
  processSlashings Fixture.cs Boundary.st_heavy
  = (Boundary.st_heavy_slashed, Ret tt)
  /\ MemState.writes Boundary.st_heavy_slashed
     = [MemState.WDecreaseBalance 0 406000000000]
  /\ adjustedTotalSlashingBalance Fixture.cs 4000000000000000 10000000000000000
     = 10000000000000000
  /\ EffectiveBalance Boundary.heavy / EffectiveBalanceIncrement Fixture.cs
     * 10000000000000000 / 10000000000000000
     * EffectiveBalanceIncrement Fixture.cs
     = 4096000000000
  /\ 406000000000 <> 4096000000000.
Proof. repeat split; try reflexivity. discriminate. Qed.

(** The order of the operations matters: on the figures of the
    specification the penalty is 0, while multiplying by the increment
    before dividing by the total would give 3000000. *)
Example penalty_order_matters :
  let cs := MemState.chainSpec 32 8192 3 1000000000 in
  let val := mkValidator 11 32000000000 true 0 in
  penalty cs val 3000000000 32000000000000 = 0
  /\ 32000000000 / 1000000000 * 3000000000 * 1000000000 / 32000000000000
     = 3000000.
Proof. split; reflexivity. Qed.

(** ** The adjusted total slashing balance *)

(** C3, as amended.  With the four reads succeeding, the pass runs the loop
    with [min ((totalSlashings * multiplier) mod 2^64, totalActiveBalance)]:
    the product is taken first, as a [uint64] product, and clamped
    afterwards; it is the minimum over the integers whenever the product is
    below [2^64]. *)
Theorem processSlashings_adjusted {St : Type} `{!BeaconState St}
    (cs : ChainSpec) (st : St) (totalBalance totalSlashings : Z)
    (vals : list Validator) (slot : Z) :
  GetTotalActiveBalances (SlotsPerEpoch cs) st = Ret totalBalance ->
  GetTotalSlashing st = Ret totalSlashings ->
  GetValidators st = Ret vals ->
  GetSlot st = Ret slot ->
  let product := totalSlashings * ProportionalSlashingMultiplier cs in
  processSlashings cs st =
    slashLoop cs slot (Z.min (product mod 2 ^ 64) totalBalance)
      totalBalance vals st
  /\ adjustedTotalSlashingBalance cs totalSlashings totalBalance
     = Z.min (product mod 2 ^ 64) totalBalance
  /\ (0 <= product < 2 ^ 64 ->
      adjustedTotalSlashingBalance cs totalSlashings totalBalance
      = Z.min product totalBalance).
Proof.
  intros Hb Hs Hv Hsl. cbv zeta. split; [|split].
  - rewrite (processSlashings_reads cs st _ _ _ _ Hb Hs Hv Hsl). reflexivity.
  - reflexivity.
  - intros Hp. unfold adjustedTotalSlashingBalance, mul64.
    rewrite wrap64_small by exact Hp. reflexivity.
Qed.

Lemma processSlashings_adjusted_witness :
  GetTotalActiveBalances (SlotsPerEpoch Fixture.cs) Fixture.st = Ret 96000000000
  /\ GetTotalSlashing Fixture.st = Ret 8000000007
  /\ GetValidators Fixture.st = Ret (MemState.validators Fixture.st)
  /\ GetSlot Fixture.st = Ret 64
  /\ 0 <= 8000000007 * 3 < 2 ^ 64
  /\ adjustedTotalSlashingBalance Fixture.cs 8000000007 96000000000
     = Z.min (8000000007 * 3) 96000000000.
Proof.
  do 4 (split; [reflexivity|]).
  split; [lia|].
  refine (proj2 (proj2 (processSlashings_adjusted Fixture.cs Fixture.st
    96000000000 8000000007 (MemState.validators Fixture.st) 64 _ _ _ _)) _);
    try reflexivity.
  change (ProportionalSlashingMultiplier Fixture.cs) with 3. lia.
Defined.

(** C3, as stated, fails: with a total of 6148914691236517206 Gwei in the
    slashings vector and multiplier 3 the product is [2^64 + 2]; the
    program clamps the wrapped product 2, where the minimum over the
    integers is the total active balance. *)
Lemma adjusted_not_unbounded_min :
  is_uint64 6148914691236517206
  /\ is_uint64 (ProportionalSlashingMultiplier Fixture.cs)
  /\ is_uint64 96000000000
  /\ adjustedTotalSlashingBalance Fixture.cs 6148914691236517206 96000000000 = 2
  /\ Z.min (6148914691236517206 * ProportionalSlashingMultiplier Fixture.cs)
           96000000000 = 96000000000
  /\ adjustedTotalSlashingBalance Fixture.cs 6148914691236517206 96000000000
     <> Z.min (6148914691236517206 * ProportionalSlashingMultiplier Fixture.cs)
              96000000000.
Proof.
  unfold is_uint64, modulus64.
  repeat split; try reflexivity; vm_compute; congruence.
Qed.

(** ** Division by the total active balance *)

Lemma slashEach_zero_total {St : Type} `{!BeaconState St}
    (cs : ChainSpec) (adjusted : Z) (val : Validator) (rest : list Validator)
    (st : St) :
  slashEach cs adjusted 0 (val :: rest) st = (st, Panic DivideByZero).
Proof.
  simpl. unfold seq. rewrite processSlash_zero_total. reflexivity.
Qed.

(** C10.  The division by the total active balance is not guarded: when
    the state reports a total active balance of 0 (the other reads
    succeeding) and some validator of the registry is slashed with its
    withdrawable epoch equal to the slashable epoch, [processSlashings]
    panics with an integer division by zero; it returns no error, and it
    has touched nothing by then. *)
Theorem processSlashings_zero_total {St : Type} `{!BeaconState St}
    (cs : ChainSpec) (st : St) (totalSlashings : Z)
    (vals : list Validator) (slot : Z) :
  GetTotalActiveBalances (SlotsPerEpoch cs) st = Ret 0 ->
  GetTotalSlashing st = Ret totalSlashings ->
  GetValidators st = Ret vals ->
  GetSlot st = Ret slot ->
  (exists val, val ∈ vals
     /\ Slashed val = true
     /\ WithdrawableEpoch val
        = add64 (SlotToEpoch cs slot) (EpochsPerSlashingsVector cs) / 2) ->
  processSlashings cs st = (st, Panic DivideByZero).
Proof.
  intros Hb Hs Hv Hsl (val & Hin & Hslashed & Hepoch).
  rewrite (processSlashings_reads cs st _ _ _ _ Hb Hs Hv Hsl).
  rewrite slashLoop_filter.
  assert (val ∈ filter (slashable cs slot) vals) as Hf.
  { apply list_elem_of_filter. split; [split; assumption | exact Hin]. }
  destruct (filter (slashable cs slot) vals) as [|first rest].
  - apply elem_of_nil in Hf. contradiction.
  - apply slashEach_zero_total.
Qed.

Lemma processSlashings_zero_total_witness :
  GetTotalActiveBalances (SlotsPerEpoch Fixture.cs) Fixture.st_empty = Ret 0
  /\ Fixture.carol ∈ MemState.validators Fixture.st_empty
  /\ Slashed Fixture.carol = true
  /\ WithdrawableEpoch Fixture.carol = 3
  /\ processSlashings Fixture.cs Fixture.st_empty
     = (Fixture.st_empty, Panic DivideByZero).
Proof.
  split; [reflexivity|].
  split; [do 2 apply list_elem_of_further; apply list_elem_of_here|].
  split; [reflexivity|].
  split; [reflexivity|].
  apply (processSlashings_zero_total Fixture.cs Fixture.st_empty
           8000000007 (MemState.validators Fixture.st_empty) 64);
    try reflexivity.
  exists Fixture.carol.
  split; [do 2 apply list_elem_of_further; apply list_elem_of_here|].
  split; reflexivity.
Defined.

(** ** Failures during the pass *)

Lemma processSlashings_read_fails {St : Type} `{!BeaconState St}
    (cs : ChainSpec) (st : St) (e : error) :
  GetTotalActiveBalances (SlotsPerEpoch cs) st = Raise e
  \/ (exists b, GetTotalActiveBalances (SlotsPerEpoch cs) st = Ret b
        /\ (GetTotalSlashing st = Raise e
            \/ exists s, GetTotalSlashing st = Ret s
                 /\ (GetValidators st = Raise e
                     \/ exists vals, GetValidators st = Ret vals
                          /\ GetSlot st = Raise e))) ->
  processSlashings cs st = (st, Raise e).
Proof.
  unfold processSlashings, seq, read.
  intros [->|(b & -> & [->|(s & -> & [->|(vals & -> & ->)])])]; reflexivity.
Qed.

(** C9.  The reads before the loop having succeeded, let the loop have
    gone through the validators [pre] without a failure, leaving the state
    [st1], and let the next validator [val] pass the test.  If the lookup
    of its index fails with [e], or the lookup succeeds and
    [DecreaseBalance] fails with [e] leaving the state [st2], then
    [processSlashings] returns [e] and the state is [st2]: the validators
    after [val] are not looked at, nothing is tried again, and what was
    done for [pre] stays done. *)
Theorem processSlashings_aborts {St : Type} `{!BeaconState St}
    (cs : ChainSpec) (st st1 st2 : St) (totalBalance totalSlashings slot : Z)
    (pre post : list Validator) (val : Validator) (e : error) :
  EffectiveBalanceIncrement cs <> 0 ->
  totalBalance <> 0 ->
  GetTotalActiveBalances (SlotsPerEpoch cs) st = Ret totalBalance ->
  GetTotalSlashing st = Ret totalSlashings ->
  GetValidators st = Ret (pre ++ val :: post) ->
  GetSlot st = Ret slot ->
  let adjusted := adjustedTotalSlashingBalance cs totalSlashings totalBalance in
  slashLoop cs slot adjusted totalBalance pre st = (st1, Ret tt) ->
  Slashed val = true ->
  WithdrawableEpoch val
    = add64 (SlotToEpoch cs slot) (EpochsPerSlashingsVector cs) / 2 ->
  (ValidatorIndexByPubkey (Pubkey val) st1 = Raise e /\ st2 = st1)
  \/ (exists idx,
        ValidatorIndexByPubkey (Pubkey val) st1 = Ret idx
        /\ DecreaseBalance idx (penalty cs val adjusted totalBalance) st1
           = (st2, Raise e)) ->
  processSlashings cs st = (st2, Raise e).
Proof.
  intros Hinc Htot Hb Hs Hv Hsl adjusted Hpre Hslashed Hepoch Hfail.
  rewrite (processSlashings_reads cs st _ _ _ _ Hb Hs Hv Hsl).
  fold adjusted. rewrite (slashLoop_app cs _ _ _ _ _ _ _ Hpre).
  rewrite slashLoop_cons_yes by (split; assumption).
  unfold seq. rewrite processSlash_nonzero by assumption.
  destruct Hfail as [[Hidx ->]|(idx & Hidx & Hdec)]; rewrite Hidx.
  - reflexivity.
  - rewrite Hdec. reflexivity.
Qed.

Lemma processSlashings_aborts_witness :
  slashLoop Fixture.cs 64 24000000021 96000000000
    [Fixture.alice; Fixture.bob] Fixture.st_short
  = (Fixture.st_short_alice, Ret tt)
  /\ DecreaseBalance 2 4000000000 Fixture.st_short_alice
     = (Fixture.st_short_alice, Raise MemState.ErrIndexOutOfRange)
  /\ processSlashings Fixture.cs Fixture.st_short
     = (Fixture.st_short_alice, Raise MemState.ErrIndexOutOfRange)
  /\ MemState.balances Fixture.st_short !! 0%nat = Some 40000000000
  /\ MemState.balances Fixture.st_short_alice !! 0%nat = Some 32000000000.
Proof.
  split; [reflexivity|].
  split; [reflexivity|].
  split; [|split; reflexivity].
  apply (processSlashings_aborts Fixture.cs Fixture.st_short
           Fixture.st_short_alice Fixture.st_short_alice
           96000000000 8000000007 64
           [Fixture.alice; Fixture.bob] [Fixture.dave] Fixture.carol
           MemState.ErrIndexOutOfRange);
    try reflexivity.
  - vm_compute; discriminate.
  - lia.
  - right. exists 2. split; reflexivity.
Defined.

(** ** The state processor over the reference state *)

Section MemStateFacts.
Import MemState.
Variable cs : ChainSpec.

(** What the state becomes when the balance at position [i], holding
    [b], is decreased by [delta]. *)
Lemma decreaseBalance_some (st : t) (i : nat) (b delta : Z) :
  balances st !! i = Some b ->
  decreaseBalance (Z.of_nat i) delta st =
    (mk (slot st) (validators st)
        (<[i := b - Z.min b delta]> (balances st))
        (slashings st) (totalActiveBalance st)
        (writes st ++ [WDecreaseBalance (Z.of_nat i) delta]),
     Ret tt).
Proof.
  intros Hb. unfold decreaseBalance.
  destruct (Z.leb_spec 0 (Z.of_nat i)); [|lia].
  rewrite Nat2Z.id, Hb. reflexivity.
Qed.

Lemma decreaseBalance_none (st : t) (i : nat) (delta : Z) :
  balances st !! i = None ->
  decreaseBalance (Z.of_nat i) delta st = (st, Raise ErrIndexOutOfRange).
Proof.
  intros Hb. unfold decreaseBalance.
  destruct (0 <=? Z.of_nat i); [|reflexivity].
  rewrite Nat2Z.id, Hb. reflexivity.
Qed.

(** One call of [processSlash]: either the balance of the validator the
    key resolves to is decreased by the penalty and the write recorded, or
    the call does not return nil and the state is as it was. *)
Lemma processSlash_mem val adjusted totalBalance (st st' : t) r :
  processSlash cs val adjusted totalBalance st = (st', r) ->
  (exists i u b,
      r = Ret tt
      /\ list_find (fun v => Pubkey v = Pubkey val) (validators st) = Some (i, u)
      /\ balances st !! i = Some b
      /\ st' = mk (slot st) (validators st)
                 (<[i := b - Z.min b (penalty cs val adjusted totalBalance)]>
                    (balances st))
                 (slashings st) (totalActiveBalance st)
                 (writes st
                    ++ [WDecreaseBalance (Z.of_nat i)
                          (penalty cs val adjusted totalBalance)]))
  \/ (r <> Ret tt /\ st' = st).
Proof.
  destruct (decide (EffectiveBalanceIncrement cs = 0)) as [Hinc|Hinc].
  { unfold processSlash, seq, pure. rewrite Hinc, udiv_zero.
    intros [= <- <-]. right. split; [discriminate | reflexivity]. }
  destruct (decide (totalBalance = 0)) as [->|Htot].
  { rewrite processSlash_zero_total.
    intros [= <- <-]. right. split; [discriminate | reflexivity]. }
  rewrite processSlash_nonzero by assumption.
  cbn [ValidatorIndexByPubkey DecreaseBalance beaconState].
  unfold validatorIndexByPubkey.
  destruct (list_find _ (validators st)) as [[i u]|] eqn:Hfind.
  - destruct (balances st !! i) as [b|] eqn:Hb.
    + rewrite (decreaseBalance_some st i b _ Hb).
      intros [= <- <-]. left. exists i, u, b. repeat split; assumption || reflexivity.
    + rewrite (decreaseBalance_none st i _ Hb).
      intros [= <- <-]. right. split; [discriminate | reflexivity].
  - intros [= <- <-]. right. split; [discriminate | reflexivity].
Qed.

Lemma penalty_nonneg val adjusted totalBalance :
  0 <= penalty cs val adjusted totalBalance.
Proof. apply mul64_nonneg. Qed.

Lemma slashEach_mem adjusted totalBalance vs (st st' : t) r :
  slashEach cs adjusted totalBalance vs st = (st', r) ->
  (slot st' = slot st /\ validators st' = validators st
   /\ slashings st' = slashings st
   /\ totalActiveBalance st' = totalActiveBalance st
   /\ length (balances st') = length (balances st))
  /\ (exists done rest ws,
        vs = done ++ rest /\ (r = Ret tt -> rest = [])
        /\ writes st' = writes st ++ ws
        /\ recorded cs st adjusted totalBalance done ws)
  /\ (forall j,
        (forall val i u,
            val ∈ vs ->
            list_find (fun v => Pubkey v = Pubkey val) (validators st)
            = Some (i, u) ->
            i <> j) ->
        balances st' !! j = balances st !! j)
  /\ (forall j b,
        balances st !! j = Some b ->
        exists b', balances st' !! j = Some b' /\ (0 <= b -> 0 <= b' <= b)).
Proof.
  revert st. induction vs as [|val vs IH]; intros st Hrun.
  - simpl in Hrun. unfold pure in Hrun. injection Hrun as <- <-.
    split; [repeat split; reflexivity|].
    split.
    { exists [], [], [].
      split; [reflexivity|]. split; [reflexivity|].
      split; [symmetry; apply app_nil_r | constructor]. }
    split; [reflexivity|].
    intros j b Hb. exists b. split; [exact Hb | lia].
  - simpl in Hrun. unfold seq in Hrun.
    destruct (processSlash cs val adjusted totalBalance st) as [st1 r1] eqn:Hstep.
    apply processSlash_mem in Hstep
      as [(i & u & b & -> & Hfind & Hb & Hst1)|[Hr1 ->]].
    + specialize (IH st1 Hrun). rewrite Hst1 in IH. cbn [slot validators
        balances slashings totalActiveBalance writes] in IH.
      destruct IH as ((Hsl & Hva & Hsh & Hto & Hlen)
                      & (done & rest & ws & -> & Hrest & Hws & Hrec)
                      & Hother & Hle).
      rewrite length_insert in Hlen.
      split; [repeat split; assumption|].
      split.
      { exists (val :: done), rest,
          (WDecreaseBalance (Z.of_nat i)
             (penalty cs val adjusted totalBalance) :: ws).
        split; [reflexivity|]. split; [exact Hrest|].
        split; [rewrite Hws, <- app_assoc; reflexivity|].
        constructor; [exists i, u; split; [exact Hfind | reflexivity]|exact Hrec]. }
      split.
      { intros j Hj. rewrite Hother.
        - apply list_lookup_insert_ne.
          apply (Hj val i u); [apply list_elem_of_here | exact Hfind].
        - intros val' i' u' Hin. apply Hj. apply list_elem_of_further. exact Hin. }
      intros j b0 Hb0.
      destruct (decide (i = j)) as [<-|Hij].
      * assert (b0 = b) as -> by congruence.
        destruct (Hle i (b - Z.min b (penalty cs val adjusted totalBalance)))
          as (b' & Hb' & Hbound).
        { apply list_lookup_insert_eq. apply lookup_lt_Some in Hb. exact Hb. }
        exists b'. split; [exact Hb'|].
        pose proof (penalty_nonneg val adjusted totalBalance). lia.
      * apply Hle. rewrite list_lookup_insert_ne by exact Hij. exact Hb0.
    + destruct r1 as [[]| |]; [contradiction Hr1; reflexivity | |];
        injection Hrun as <- <-.
      all: split; [repeat split; reflexivity|].
      all: split;
        [exists [], (val :: vs), [];
         split; [reflexivity|]; split; [discriminate|];
         split; [symmetry; apply app_nil_r | constructor]|].
      all: split; [reflexivity|].
      all: intros j b Hb; exists b; split; [exact Hb | lia].
Qed.

(** The pass over the reference state: only the read of the slot can
    fail. *)
Lemma processSlashings_mem (st : t) :
  processSlashings cs st =
    match slot st with
    | Some s =>
        slashEach cs
          (adjustedTotalSlashingBalance cs (fold_left add64 (slashings st) 0)
             (totalActiveBalance st))
          (totalActiveBalance st)
          (filter (slashable cs s) (validators st)) st
    | None => (st, Raise ErrSlotUnavailable)
    end.
Proof.
  destruct (slot st) as [s|] eqn:Hslot.
  - rewrite (processSlashings_reads cs st (totalActiveBalance st)
               (fold_left add64 (slashings st) 0) (validators st) s);
      try reflexivity.
    + rewrite slashLoop_filter. reflexivity.
    + cbn. unfold getSlot. rewrite Hslot. reflexivity.
  - apply processSlashings_read_fails. right.
    exists (totalActiveBalance st). split; [reflexivity|]. right.
    exists (fold_left add64 (slashings st) 0). split; [reflexivity|]. right.
    exists (validators st). split; [reflexivity|].
    cbn. unfold getSlot. rewrite Hslot. reflexivity.
Qed.

(** With distinct keys, a key resolves to the position of its validator. *)
Lemma list_find_pubkey_unique (vals : list Validator) val i u k :
  NoDup (Pubkey <$> vals) ->
  list_find (fun v => Pubkey v = Pubkey val) vals = Some (i, u) ->
  vals !! k = Some val ->
  i = k /\ u = val.
Proof.
  intros Hnd Hfind Hk.
  apply list_find_Some in Hfind as (Hi & Hpk & _).
  assert (i = k) as ->.
  { apply (NoDup_lookup (Pubkey <$> vals) i k (Pubkey val) Hnd).
    - rewrite list_lookup_fmap, Hi. simpl. rewrite Hpk. reflexivity.
    - rewrite list_lookup_fmap, Hk. reflexivity. }
  split; [reflexivity | congruence].
Qed.

Lemma processSlashingsReset_mem (st : t) :
  EpochsPerSlashingsVector cs <> 0 ->
  processSlashingsReset cs st =
    match slot st with
    | Some s =>
        updateSlashingAtIndex
          (add64 (SlotToEpoch cs s) 1 mod EpochsPerSlashingsVector cs) 0 st
    | None => (st, Raise ErrSlotUnavailable)
    end.
Proof.
  intros Hn. unfold processSlashingsReset, seq, read, pure.
  cbn [GetSlot UpdateSlashingAtIndex beaconState]. unfold getSlot.
  destruct (slot st) as [s|]; [|reflexivity].
  rewrite umod_nonzero by exact Hn.
  destruct (updateSlashingAtIndex _ 0 st) as [st1 [[]| |]]; reflexivity.
Qed.

End MemStateFacts.

(** ** Who is penalized *)

(** C2, as amended.  Over the reference state, with the slot available: the
    pass is
    the sequence of calls of [processSlash] for the validators of the whole
    registry that are slashed and whose withdrawable epoch equals
    [(currentEpoch + EpochsPerSlashingsVector) / 2] (a [uint64] sum, which
    is the sum over the integers when that is below [2^64], and a floor
    division), in the order of the registry, each with the same adjusted
    total and total active balance; and when the pass succeeds the writes it
    has recorded are, one for one and in order, the decreases of the
    balances of exactly these validators.  The test is an equality. *)
Theorem processSlashings_penalizes_exactly (cs : ChainSpec)
    (st : MemState.t) (s : Z) :
  MemState.slot st = Some s ->
  let epoch :=
    ((SlotToEpoch cs s + EpochsPerSlashingsVector cs) mod 2 ^ 64) / 2 in
  let targeted :=
    filter (fun val => Slashed val = true /\ WithdrawableEpoch val = epoch)
           (MemState.validators st) in
  let totalBalance := MemState.totalActiveBalance st in
  let adjusted :=
    adjustedTotalSlashingBalance cs
      (fold_left add64 (MemState.slashings st) 0) totalBalance in
  (forall val,
      val ∈ targeted
      <-> val ∈ MemState.validators st
          /\ Slashed val = true /\ WithdrawableEpoch val = epoch)
  /\ (0 <= SlotToEpoch cs s + EpochsPerSlashingsVector cs < 2 ^ 64 ->
      epoch = (SlotToEpoch cs s + EpochsPerSlashingsVector cs) / 2)
  /\ processSlashings cs st = slashEach cs adjusted totalBalance targeted st
  /\ (forall st',
        processSlashings cs st = (st', Ret tt) ->
        exists ws,
          MemState.writes st' = MemState.writes st ++ ws
          /\ Forall2 (fun val w =>
                        exists idx,
                          ValidatorIndexByPubkey (Pubkey val) st = Ret idx
                          /\ w = MemState.WDecreaseBalance idx
                                   (penalty cs val adjusted totalBalance))
                     targeted ws).
Proof.
  intros Hslot epoch targeted totalBalance adjusted.
  assert (targeted = filter (slashable cs s) (MemState.validators st)) as Ht
    by reflexivity.
  assert (processSlashings cs st = slashEach cs adjusted totalBalance targeted st)
    as Hpass.
  { rewrite processSlashings_mem, Hslot, Ht. reflexivity. }
  split; [|split; [|split]].
  - intros val. unfold targeted. rewrite list_elem_of_filter. tauto.
  - intros Hsmall. unfold epoch. rewrite Z.mod_small by exact Hsmall.
    reflexivity.
  - exact Hpass.
  - intros st' Hok. rewrite Hpass in Hok.
    apply slashEach_mem in Hok
      as (_ & (done & rest & ws & Hsplit & Hrest & Hws & Hrec) & _).
    rewrite (Hrest eq_refl), app_nil_r in Hsplit. subst done.
    exists ws. split; [exact Hws|].
    unfold recorded in Hrec. eapply Forall2_impl; [exact Hrec|].
    intros val w (i & u & Hfind & ->). exists (Z.of_nat i).
    split; [|reflexivity].
    cbn. unfold MemState.validatorIndexByPubkey. rewrite Hfind. reflexivity.
Qed.

Lemma processSlashings_penalizes_exactly_witness :
  MemState.slot Fixture.st = Some 64
  /\ processSlashings Fixture.cs Fixture.st = (Fixture.st_slashed, Ret tt)
  /\ exists ws,
       MemState.writes Fixture.st_slashed = MemState.writes Fixture.st ++ ws
       /\ Forall2 (fun val w =>
                     exists idx,
                       ValidatorIndexByPubkey (Pubkey val) Fixture.st = Ret idx
                       /\ w = MemState.WDecreaseBalance idx
                                (penalty Fixture.cs val 24000000021 96000000000))
                  [Fixture.alice; Fixture.carol] ws.
Proof.
  split; [reflexivity|].
  split; [reflexivity|].
  exact (proj2 (proj2 (proj2 (processSlashings_penalizes_exactly
                                Fixture.cs Fixture.st 64 eq_refl)))
           Fixture.st_slashed eq_refl).
Defined.

(** C2, as stated, fails: at epoch [2^64 - 1] with a slashings vector of
    3 epochs the sum wraps and the slashable epoch is 1, where
    [(E + EpochsPerSlashingsVector) / 2] over the integers is [2^63 + 1].
    Of two slashed validators, the one withdrawable at epoch 1 is
    penalized, and the one withdrawable at [2^63 + 1] is not. *)
Lemma penalized_at_wrapped_epoch :
  (SlotToEpoch Fixture.cs_dense (2 ^ 64 - 1)
   + EpochsPerSlashingsVector Fixture.cs_dense) / 2
  = 9223372036854775809
  /\ Slashed Boundary.early = true
  /\ WithdrawableEpoch Boundary.early <> 9223372036854775809
  /\ Slashed Boundary.late = true
  /\ WithdrawableEpoch Boundary.late = 9223372036854775809
  /\ processSlashings Fixture.cs_dense Boundary.st_wrap
     = (Boundary.st_wrap_slashed, Ret tt)
  /\ MemState.writes Boundary.st_wrap_slashed
     = [MemState.WDecreaseBalance 0 8000000000]
  /\ ValidatorIndexByPubkey (Pubkey Boundary.early) Boundary.st_wrap = Ret 0
  /\ ValidatorIndexByPubkey (Pubkey Boundary.late) Boundary.st_wrap = Ret 1.
Proof. repeat split; try reflexivity. discriminate. Qed.

(** ** What the pass leaves alone *)

(** C5, as amended.  Over the reference state, whatever the outcome of the
    pass: the state it leaves is reached through calls of [DecreaseBalance] alone; the
    validator records, the slashings vector, the slot and the total active
    balance are as before; every write the pass has recorded is a
    [DecreaseBalance]; no balance grows; and, the keys of the registry
    being distinct, the balance at every index whose validator is not both
    slashed and withdrawable at [(currentEpoch + EpochsPerSlashingsVector)
    / 2], the sum being a [uint64] sum, is as before. *)
Theorem processSlashings_frame (cs : ChainSpec) (st st' : MemState.t)
    (r : res unit) :
  processSlashings cs st = (st', r) ->
  decreasedFrom st st'
  /\ MemState.validators st' = MemState.validators st
  /\ MemState.slashings st' = MemState.slashings st
  /\ MemState.slot st' = MemState.slot st
  /\ MemState.totalActiveBalance st' = MemState.totalActiveBalance st
  /\ (exists ws,
        MemState.writes st' = MemState.writes st ++ ws
        /\ Forall (fun w => exists idx delta,
                              w = MemState.WDecreaseBalance idx delta) ws)
  /\ length (MemState.balances st') = length (MemState.balances st)
  /\ (forall j b,
        MemState.balances st !! j = Some b ->
        exists b', MemState.balances st' !! j = Some b'
                   /\ (0 <= b -> 0 <= b' <= b))
  /\ (NoDup (Pubkey <$> MemState.validators st) ->
      forall j,
        (forall val s,
            MemState.validators st !! j = Some val ->
            MemState.slot st = Some s ->
            ~ (Slashed val = true
               /\ WithdrawableEpoch val
                  = ((SlotToEpoch cs s + EpochsPerSlashingsVector cs)
                       mod 2 ^ 64) / 2)) ->
        MemState.balances st' !! j = MemState.balances st !! j).
Proof.
  intros Hpass. split; [exact (processSlashings_decreases cs st st' r Hpass)|].
  revert Hpass. rewrite processSlashings_mem.
  destruct (MemState.slot st) as [s|] eqn:Hslot.
  - intros Hrun. apply slashEach_mem in Hrun
      as ((Hsl & Hva & Hsh & Hto & Hlen)
          & (done & rest & ws & Hsplit & _ & Hws & Hrec) & Hother & Hle).
    rewrite Hslot in Hsl.
    repeat (split; [assumption|]).
    split.
    { exists ws. split; [exact Hws|].
      unfold recorded in Hrec. clear -Hrec.
      induction Hrec as [|val w done ws (i & u & _ & ->) _ IH];
        constructor; [eauto | exact IH]. }
    split; [exact Hlen|].
    split; [exact Hle|].
    intros Hnd j Hj. apply Hother.
    intros val i u Hin Hfind ->.
    apply list_elem_of_filter in Hin as [Hslashable Hin].
    apply list_elem_of_lookup in Hin as [k Hk].
    destruct (list_find_pubkey_unique _ _ _ _ _ Hnd Hfind Hk) as [-> _].
    exact (Hj val s Hk eq_refl Hslashable).
  - intros [= <- <-].
    repeat (split; [reflexivity || assumption|]).
    split; [exists []; split; [symmetry; apply app_nil_r | constructor]|].
    split; [reflexivity|].
    split; [intros j b Hb; exists b; split; [exact Hb | lia]|].
    reflexivity.
Qed.

Lemma processSlashings_frame_witness :
  processSlashings Fixture.cs Fixture.st = (Fixture.st_slashed, Ret tt)
  /\ NoDup (Pubkey <$> MemState.validators Fixture.st)
  /\ MemState.slashings Fixture.st_slashed = MemState.slashings Fixture.st
  /\ MemState.balances Fixture.st_slashed !! 1%nat
     = MemState.balances Fixture.st !! 1%nat
  /\ MemState.balances Fixture.st_slashed !! 3%nat
     = MemState.balances Fixture.st !! 3%nat.
Proof.
  assert (NoDup (Pubkey <$> MemState.validators Fixture.st)) as Hnd.
  { apply (bool_decide_unpack _). vm_compute. exact I. }
  pose proof (processSlashings_frame Fixture.cs Fixture.st
                Fixture.st_slashed (Ret tt) eq_refl)
    as (_ & _ & Hsh & _ & _ & _ & _ & _ & Hother).
  split; [reflexivity|].
  split; [exact Hnd|].
  split; [exact Hsh|].
  split; apply (Hother Hnd); intros val s [= <-] [= <-] [Hs He]; discriminate.
Defined.

(** C5, as stated, fails: at epoch [2^64 - 1] with a slashings vector of
    3 epochs, the keys of the registry being distinct, the balance of a
    slashed validator withdrawable at epoch 1 is decreased, although its
    withdrawable epoch is not [(E + EpochsPerSlashingsVector) / 2], which is
    [2^63 + 1].  And with two validators under one key, the index of the
    slashed one resolves to the other, which is not slashed and pays. *)
Lemma frame_counterexamples :
  (processSlashings Fixture.cs_dense Boundary.st_wrap
   = (Boundary.st_wrap_slashed, Ret tt)
   /\ NoDup (Pubkey <$> MemState.validators Boundary.st_wrap)
   /\ MemState.validators Boundary.st_wrap !! 0%nat = Some Boundary.early
   /\ ~ (Slashed Boundary.early = true
         /\ WithdrawableEpoch Boundary.early
            = (SlotToEpoch Fixture.cs_dense (2 ^ 64 - 1)
               + EpochsPerSlashingsVector Fixture.cs_dense) / 2)
   /\ MemState.balances Boundary.st_wrap !! 0%nat = Some 40000000000
   /\ MemState.balances Boundary.st_wrap_slashed !! 0%nat = Some 32000000000)
  /\ (processSlashings Fixture.cs Boundary.st_twins
      = (Boundary.st_twins_slashed, Ret tt)
      /\ (exists val,
            MemState.validators Boundary.st_twins !! 0%nat = Some val
            /\ Slashed val = false)
      /\ MemState.balances Boundary.st_twins !! 0%nat = Some 40000000000
      /\ MemState.balances Boundary.st_twins_slashed !! 0%nat
         = Some 32000000000).
Proof.
  split.
  - split; [reflexivity|].
    split; [apply (bool_decide_unpack _); vm_compute; exact I|].
    split; [reflexivity|].
    split; [intros [_ Hepoch]; vm_compute in Hepoch; discriminate|].
    split; reflexivity.
  - split; [reflexivity|].
    split; [eexists; split; reflexivity|].
    split; reflexivity.
Qed.

(** ** The reset of the slashings window *)

(** C4, as amended.  Over the reference state: when
    [processSlashingsReset] succeeds, the entry of the slashings vector at
    index [((E + 1) mod 2^64) mod EpochsPerSlashingsVector] is 0, where [E]
    is the epoch of the slot and [E + 1] a [uint64] sum (the index is
    [(E + 1) mod EpochsPerSlashingsVector] over the integers for every [E]
    but [2^64 - 1]), and every other entry, the balances and the validators
    are as before; when it returns an error, that error is the error of
    the read of the slot or of the update of the slashings vector, and the
    state is as before; and it panics, on an integer division by zero and
    with the state as before, only when the slot has been read and the
    length of the slashings vector is zero in the chain parameters. *)
Theorem processSlashingsReset_spec (cs : ChainSpec) (st st' : MemState.t)
    (r : res unit) :
  processSlashingsReset cs st = (st', r) ->
  match r with
  | Ret _ =>
      exists s,
        MemState.slot st = Some s
        /\ EpochsPerSlashingsVector cs <> 0
        /\ let E := SlotToEpoch cs s in
           let index := ((E + 1) mod 2 ^ 64) mod EpochsPerSlashingsVector cs in
           0 <= index
           /\ MemState.slashings st' !! Z.to_nat index = Some 0
           /\ (forall j, j <> Z.to_nat index ->
                 MemState.slashings st' !! j = MemState.slashings st !! j)
           /\ (0 <= E -> E + 1 < 2 ^ 64 ->
               index = (E + 1) mod EpochsPerSlashingsVector cs)
           /\ MemState.balances st' = MemState.balances st
           /\ MemState.validators st' = MemState.validators st
  | Raise e =>
      st' = st
      /\ (GetSlot st = Raise e
          \/ exists s,
               GetSlot st = Ret s
               /\ EpochsPerSlashingsVector cs <> 0
               /\ UpdateSlashingAtIndex
                    (((SlotToEpoch cs s + 1) mod 2 ^ 64)
                       mod EpochsPerSlashingsVector cs) 0 st
                  = (st, Raise e))
  | Panic p =>
      p = DivideByZero
      /\ st' = st
      /\ EpochsPerSlashingsVector cs = 0
      /\ exists s, GetSlot st = Ret s
  end.
Proof.
  destruct (decide (EpochsPerSlashingsVector cs = 0)) as [Hz|Hn].
  { unfold processSlashingsReset, seq, read, pure.
    cbn [GetSlot MemState.beaconState]. unfold MemState.getSlot.
    destruct (MemState.slot st) as [s|] eqn:Hslot.
    - rewrite Hz. cbn. intros [= <- <-].
      repeat split; try assumption. exists s. reflexivity.
    - intros [= <- <-]. split; [reflexivity|]. left. reflexivity. }
  rewrite processSlashingsReset_mem by exact Hn.
  destruct (MemState.slot st) as [s|] eqn:Hslot.
  - change (add64 (SlotToEpoch cs s) 1 mod EpochsPerSlashingsVector cs)
      with (((SlotToEpoch cs s + 1) mod 2 ^ 64) mod EpochsPerSlashingsVector cs).
    set (index := ((SlotToEpoch cs s + 1) mod 2 ^ 64)
                    mod EpochsPerSlashingsVector cs).
    assert (GetSlot st = Ret s) as Hget.
    { cbn. unfold MemState.getSlot. rewrite Hslot. reflexivity. }
    unfold MemState.updateSlashingAtIndex.
    destruct ((0 <=? index)
              && (index <? Z.of_nat (length (MemState.slashings st))))
      eqn:Hrange.
    + intros [= <- <-]. exists s. split; [reflexivity|].
      split; [exact Hn|]. cbv zeta. fold index.
      apply andb_true_iff in Hrange as [H0 Hlen].
      apply Z.leb_le in H0. apply Z.ltb_lt in Hlen.
      split; [exact H0|]. cbn [MemState.slashings MemState.balances
                               MemState.validators].
      split; [apply list_lookup_insert_eq; lia|].
      split; [intros j Hj; apply list_lookup_insert_ne; congruence|].
      split; [|split; reflexivity].
      intros HE Hsmall. unfold index.
      rewrite (Z.mod_small (SlotToEpoch cs s + 1)) by lia. reflexivity.
    + intros [= <- <-]. split; [reflexivity|]. right. exists s.
      split; [exact Hget|]. split; [exact Hn|].
      cbn. unfold MemState.updateSlashingAtIndex.
      fold index. rewrite Hrange. reflexivity.
  - intros [= <- <-]. split; [reflexivity|]. left.
    cbn. unfold MemState.getSlot. rewrite Hslot. reflexivity.
Qed.

Lemma processSlashingsReset_spec_witness :
  processSlashingsReset Fixture.cs Fixture.st = (Fixture.st_reset, Ret tt)
  /\ EpochsPerSlashingsVector Fixture.cs <> 0
  /\ MemState.slashings Fixture.st !! 3%nat = Some 4000000000
  /\ MemState.slashings Fixture.st_reset !! 3%nat = Some 0
  /\ (forall j, j <> 3%nat ->
        MemState.slashings Fixture.st_reset !! j
        = MemState.slashings Fixture.st !! j).
Proof.
  pose proof (processSlashingsReset_spec Fixture.cs Fixture.st
                Fixture.st_reset (Ret tt) eq_refl)
    as (s & Hs & Hn & _ & Hzero & Hother & _).
  injection Hs as <-.
  split; [reflexivity|].
  split; [exact Hn|].
  split; [reflexivity|].
  split; [exact Hzero | exact Hother].
Defined.

(** C4, as stated, fails.  At the last epoch a [uint64] holds, with a
    slashings vector of 3 epochs, [E + 1] wraps to 0: the entry at index 0
    is reset, and the entry at [(E + 1) mod 3], which is 1 over the
    integers, is not.  And with a slashings vector of length 0 in the chain
    parameters the reset panics on the division, the slot having been read:
    no operation of the accessor has failed and no error is returned. *)
Lemma reset_wraps_and_panics :
  SlotToEpoch Fixture.cs_dense (2 ^ 64 - 1) = 2 ^ 64 - 1
  /\ (2 ^ 64 - 1 + 1) mod EpochsPerSlashingsVector Fixture.cs_dense = 1
  /\ (exists st',
        processSlashingsReset Fixture.cs_dense Fixture.st_last = (st', Ret tt)
        /\ MemState.slashings Fixture.st_last = [5; 6; 7]
        /\ MemState.slashings st' = [0; 6; 7]
        /\ MemState.slashings st' !! 1%nat <> Some 0
        /\ MemState.slashings st' !! 0%nat
           <> MemState.slashings Fixture.st_last !! 0%nat)
  /\ GetSlot Fixture.st = Ret 64
  /\ processSlashingsReset Boundary.cs_novector Fixture.st
     = (Fixture.st, Panic DivideByZero).
Proof.
  split; [reflexivity|].
  split; [reflexivity|].
  split.
  - eexists. split; [reflexivity|].
    split; [reflexivity|]. split; [reflexivity|].
    split; cbn; discriminate.
  - split; reflexivity.
Qed.

(** Over any implementation of the state, [processSlashingsReset] is the
    update of the slashings vector when the slot is read, and the result
    of the read otherwise. *)
Lemma processSlashingsReset_any {St : Type} `{!BeaconState St}
    (cs : ChainSpec) (st : St) :
  EpochsPerSlashingsVector cs <> 0 ->
  processSlashingsReset cs st =
    match GetSlot st with
    | Ret slot =>
        UpdateSlashingAtIndex
          (((SlotToEpoch cs slot + 1) mod 2 ^ 64) mod EpochsPerSlashingsVector cs)
          0 st
    | Raise e => (st, Raise e)
    | Panic p => (st, Panic p)
    end.
Proof.
  intros Hn. unfold processSlashingsReset, seq, read, pure.
  destruct (GetSlot st) as [slot| |]; [|reflexivity..].
  rewrite umod_nonzero by exact Hn.
  change (add64 (SlotToEpoch cs slot) 1)
    with ((SlotToEpoch cs slot + 1) mod 2 ^ 64).
  destruct (UpdateSlashingAtIndex _ 0 st) as [st1 [[]| |]]; reflexivity.
Qed.

(** At the last epoch a [uint64] can hold the sum [E + 1] wraps to 0: the
    entry reset is the one at index 0. *)
Example processSlashingsReset_last_epoch :
  processSlashingsReset Fixture.cs_dense Fixture.st_last
  = (MemState.mk (Some (2 ^ 64 - 1)) [] [] [0; 6; 7] 0
       [MemState.WUpdateSlashingAtIndex 0 0], Ret tt).
Proof. reflexivity. Qed.

(** ** Joined errors *)

Lemma Join_omap (errs : list (option error)) :
  Join errs = match omap id errs with
              | [] => None
              | e :: es => Some (joinError (e :: es))
              end.
Proof. unfold Join. destruct (omap id errs); reflexivity. Qed.

Lemma omap_id_fmap {A B : Type} (f : A -> option B) (l : list A) :
  omap id (map f l) = omap f l.
Proof.
  induction l as [|a l IH]; [reflexivity|].
  cbn. destruct (f a); cbn; rewrite IH; reflexivity.
Qed.

Lemma omap_nil_iff {A B : Type} (f : A -> option B) (l : list A) :
  omap f l = [] <-> Forall (fun a => f a = None) l.
Proof.
  induction l as [|a l IH]; cbn.
  - split; [constructor | reflexivity].
  - destruct (f a) eqn:Hfa; cbn.
    + split; [discriminate|]. intros H. inversion H. congruence.
    + rewrite IH. split; [constructor; assumption|].
      intros H. inversion H. assumption.
Qed.

Lemma elem_of_omap_intro {A B : Type} (f : A -> option B) (l : list A) a b :
  a ∈ l -> f a = Some b -> b ∈ omap f l.
Proof. intros Hin Hfa. apply list_elem_of_omap. exists a. split; assumption. Qed.

(** ** The blob processor over any store and any verifiers *)

Section BlobProcessorFacts.
Context {BlobSidecar Avs : Type} `{!AvailabilityStore BlobSidecar Avs}.
Variable VerifyKZGInclusionProof : BlobSidecar -> option error.
Variable VerifyKZGProofs : BlobSidecars BlobSidecar -> option error.

Local Abbreviation verify_one :=
  (verifySidecar VerifyKZGInclusionProof).
Local Abbreviation verify_all :=
  (verifyInclusionProofs VerifyKZGInclusionProof).
Local Abbreviation process :=
  (ProcessBlobs VerifyKZGInclusionProof VerifyKZGProofs).

(** The error of the first task wraps the errors of all the sidecars
    that fail, in the order of the batch. *)
Lemma verifyInclusionProofs_failures sidecars :
  verify_all sidecars =
    match omap verify_one (Sidecars sidecars) with
    | [] => None
    | e :: es => Some (joinError (e :: es))
    end.
Proof.
  unfold verifyInclusionProofs.
  rewrite Join_omap, omap_id_fmap.
  destruct (omap _ _); reflexivity.
Qed.

Lemma verifyInclusionProofs_ok sidecars :
  Forall (fun sidecar =>
            exists sc, sidecar = Some sc /\ VerifyKZGInclusionProof sc = None)
         (Sidecars sidecars) ->
  verify_all sidecars = None.
Proof.
  intros Hall. rewrite verifyInclusionProofs_failures.
  replace (omap verify_one (Sidecars sidecars)) with (@nil error);
    [reflexivity|].
  symmetry. apply omap_nil_iff.
  eapply Forall_impl; [exact Hall|].
  intros sidecar (sc & -> & Hsc). exact Hsc.
Qed.

Lemma verifyInclusionProofs_fails sidecars sidecar e :
  sidecar ∈ Sidecars sidecars ->
  verify_one sidecar = Some e ->
  exists errs,
    verify_all sidecars = Some (joinError errs) /\ e ∈ errs.
Proof.
  intros Hin He. rewrite verifyInclusionProofs_failures.
  pose proof (elem_of_omap_intro _ _ _ _ Hin He) as Hmem.
  destruct (omap _ _) as [|e0 es].
  - apply elem_of_nil in Hmem. contradiction.
  - exists (e0 :: es). split; [reflexivity | exact Hmem].
Qed.

(** A failure of either task makes [ProcessBlobs] return an error without
    calling the store. *)
Lemma ProcessBlobs_fails sched slot sidecars avs :
  is_Some (verify_all sidecars)
  \/ is_Some (VerifyKZGProofs sidecars) ->
  exists err, process sched slot sidecars avs = (avs, Raise err).
Proof.
  unfold ProcessBlobs, errgroup.Wait, pure.
  intros [[e He]|[e He]]; rewrite He;
    destruct sched; cbn;
    try (destruct (VerifyKZGProofs sidecars); cbn);
    try (destruct (verify_all sidecars); cbn);
    eauto.
Qed.

End BlobProcessorFacts.

(** ** All or nothing *)

(** C6.  For every implementation of the store, every pair of verifiers
    and either order in which the two tasks return: if some sidecar of the
    batch is nil, or the inclusion proof of some sidecar is rejected, or the
    proofs of the batch are rejected, then [ProcessBlobs] returns an error
    and the store is the one it was given: [Persist] is not called, so
    nothing of the batch is stored.  A nil sidecar is answered with
    [ErrAttemptedToVerifyNilSidecar] without the verifier being asked, and
    that error is among those the inclusion task joins. *)
Theorem ProcessBlobs_all_or_nothing {BlobSidecar Avs : Type}
    `{!AvailabilityStore BlobSidecar Avs}
    (VerifyKZGInclusionProof : BlobSidecar -> option error)
    (VerifyKZGProofs : BlobSidecars BlobSidecar -> option error)
    (sched : schedule) (slot : Z) (sidecars : BlobSidecars BlobSidecar)
    (avs : Avs) :
  None ∈ Sidecars sidecars
  \/ (exists sc e, Some sc ∈ Sidecars sidecars
                   /\ VerifyKZGInclusionProof sc = Some e)
  \/ (exists e, VerifyKZGProofs sidecars = Some e) ->
  (exists err,
      ProcessBlobs VerifyKZGInclusionProof VerifyKZGProofs
        sched slot sidecars avs = (avs, Raise err))
  /\ verifySidecar VerifyKZGInclusionProof None
     = Some ErrAttemptedToVerifyNilSidecar
  /\ (None ∈ Sidecars sidecars ->
      exists errs,
        verifyInclusionProofs VerifyKZGInclusionProof sidecars
        = Some (joinError errs)
        /\ ErrAttemptedToVerifyNilSidecar ∈ errs).
Proof.
  intros Hbad. split; [|split].
  - apply ProcessBlobs_fails.
    destruct Hbad as [Hnil|[(sc & e & Hin & Hsc)|(e & He)]].
    + left.
      destruct (verifyInclusionProofs_fails VerifyKZGInclusionProof sidecars
                  None ErrAttemptedToVerifyNilSidecar Hnil eq_refl)
        as (errs & -> & _). eexists; reflexivity.
    + left.
      destruct (verifyInclusionProofs_fails VerifyKZGInclusionProof sidecars
                  (Some sc) e Hin Hsc) as (errs & -> & _). eexists; reflexivity.
    + right. rewrite He. eexists; reflexivity.
  - reflexivity.
  - intros Hnil.
    exact (verifyInclusionProofs_fails VerifyKZGInclusionProof sidecars
             None ErrAttemptedToVerifyNilSidecar Hnil eq_refl).
Qed.

Lemma ProcessBlobs_all_or_nothing_witness :
  None ∈ Sidecars Fixture.batch_nil
  /\ exists err,
       ProcessBlobs Fixture.accept_all Fixture.proofs_ok InclusionFirst 7
         Fixture.batch_nil Fixture.avs = (Fixture.avs, Raise err)
       /\ MemAvs.calls Fixture.avs = [].
Proof.
  assert (None ∈ Sidecars Fixture.batch_nil) as Hnil
    by (apply list_elem_of_further, list_elem_of_here).
  split; [exact Hnil|].
  destruct (proj1 (ProcessBlobs_all_or_nothing Fixture.accept_all
                     Fixture.proofs_ok InclusionFirst 7 Fixture.batch_nil
                     Fixture.avs (or_introl Hnil))) as [err Herr].
  exists err. split; [exact Herr | reflexivity].
Defined.

(** C7.  For every implementation of the store and either order in which
    the two tasks return: if every sidecar of the batch is there and its
    inclusion proof accepted, and the proofs of the batch are accepted, then
    [ProcessBlobs] is the call of [Persist] with the given slot and the whole
    batch: it succeeds when the store does, and returns the error of the
    store when the write fails. *)
Theorem ProcessBlobs_persists {BlobSidecar Avs : Type}
    `{!AvailabilityStore BlobSidecar Avs}
    (VerifyKZGInclusionProof : BlobSidecar -> option error)
    (VerifyKZGProofs : BlobSidecars BlobSidecar -> option error)
    (sched : schedule) (slot : Z) (sidecars : BlobSidecars BlobSidecar)
    (avs : Avs) :
  Forall (fun sidecar =>
            exists sc, sidecar = Some sc /\ VerifyKZGInclusionProof sc = None)
         (Sidecars sidecars) ->
  VerifyKZGProofs sidecars = None ->
  ProcessBlobs VerifyKZGInclusionProof VerifyKZGProofs
    sched slot sidecars avs
  = Persist slot sidecars avs.
Proof.
  intros Hall Hproofs. unfold ProcessBlobs.
  rewrite (verifyInclusionProofs_ok VerifyKZGInclusionProof sidecars Hall).
  rewrite Hproofs. destruct sched; reflexivity.
Qed.

Lemma ProcessBlobs_persists_witness :
  Forall (fun sidecar =>
            exists sc, sidecar = Some sc /\ Fixture.accept_all sc = None)
         (Sidecars Fixture.batch)
  /\ Fixture.proofs_ok Fixture.batch = None
  /\ ProcessBlobs Fixture.accept_all Fixture.proofs_ok ProofsFirst 7
       Fixture.batch Fixture.avs
     = (MemAvs.mk {[ 7 := Fixture.batch ]} None [(7, Fixture.batch)], Ret tt)
  /\ ProcessBlobs Fixture.accept_all Fixture.proofs_ok ProofsFirst 7
       Fixture.batch Fixture.avs_down
     = (MemAvs.mk ∅ (Some (errorString "store unavailable"))
          [(7, Fixture.batch)],
        Raise (errorString "store unavailable")).
Proof.
  assert (Forall (fun sidecar =>
                    exists sc, sidecar = Some sc /\ Fixture.accept_all sc = None)
                 (Sidecars Fixture.batch)) as Hall.
  { repeat constructor; eexists; split; reflexivity. }
  split; [exact Hall|].
  split; [reflexivity|].
  split.
  - rewrite (ProcessBlobs_persists Fixture.accept_all Fixture.proofs_ok
               ProofsFirst 7 Fixture.batch Fixture.avs Hall eq_refl).
    reflexivity.
  - rewrite (ProcessBlobs_persists Fixture.accept_all Fixture.proofs_ok
               ProofsFirst 7 Fixture.batch Fixture.avs_down Hall eq_refl).
    reflexivity.
Defined.

(** ** The error returned *)

(** C8, as amended.  The error of the inclusion task wraps the errors of
    all the sidecars that fail, one for each and in the order of the batch:
    no sidecar is skipped after a failure.  When the inclusion task fails
    with [e1] and the task verifying the proofs of the batch with [e2], the
    error [ProcessBlobs] returns is [e1] if the inclusion task returned
    first and [e2] if the other did: the error of one task, not of both. *)
Theorem ProcessBlobs_first_error {BlobSidecar Avs : Type}
    `{!AvailabilityStore BlobSidecar Avs}
    (VerifyKZGInclusionProof : BlobSidecar -> option error)
    (VerifyKZGProofs : BlobSidecars BlobSidecar -> option error)
    (slot : Z) (sidecars : BlobSidecars BlobSidecar) (avs : Avs)
    (e1 e2 : error) :
  verifyInclusionProofs VerifyKZGInclusionProof sidecars = Some e1 ->
  VerifyKZGProofs sidecars = Some e2 ->
  let failures :=
    omap (verifySidecar VerifyKZGInclusionProof)
         (Sidecars sidecars) in
  e1 = joinError failures
  /\ (forall sidecar e,
        sidecar ∈ Sidecars sidecars ->
        verifySidecar VerifyKZGInclusionProof sidecar = Some e ->
        e ∈ failures)
  /\ length failures
     = length (filter (fun sidecar =>
                         verifySidecar VerifyKZGInclusionProof sidecar
                         <> None)
                      (Sidecars sidecars))
  /\ ProcessBlobs VerifyKZGInclusionProof VerifyKZGProofs
       InclusionFirst slot sidecars avs = (avs, Raise e1)
  /\ ProcessBlobs VerifyKZGInclusionProof VerifyKZGProofs
       ProofsFirst slot sidecars avs = (avs, Raise e2).
Proof.
  intros H1 H2 failures. split; [|split; [|split; [|split]]].
  - rewrite verifyInclusionProofs_failures in H1. fold failures in H1.
    destruct failures; [discriminate | congruence].
  - intros sidecar e Hin He. exact (elem_of_omap_intro _ _ _ _ Hin He).
  - unfold failures. clear.
    induction (Sidecars sidecars) as [|sidecar l IH]; [reflexivity|].
    cbn [omap list_omap].
    destruct (verifySidecar VerifyKZGInclusionProof sidecar) eqn:Hs.
    + rewrite filter_cons_True by congruence. cbn. rewrite IH. reflexivity.
    + rewrite filter_cons_False by (intros Hne; apply Hne; exact Hs). exact IH.
  - unfold ProcessBlobs. rewrite H1, H2. reflexivity.
  - unfold ProcessBlobs. rewrite H1, H2. reflexivity.
Qed.

Lemma ProcessBlobs_first_error_witness :
  verifyInclusionProofs Fixture.reject_odd Fixture.batch
  = Some (joinError [Fixture.ErrInclusion; Fixture.ErrInclusion])
  /\ Fixture.proofs_bad Fixture.batch = Some Fixture.ErrProofs
  /\ ProcessBlobs Fixture.reject_odd Fixture.proofs_bad InclusionFirst 7
       Fixture.batch Fixture.avs
     = (Fixture.avs,
        Raise (joinError [Fixture.ErrInclusion; Fixture.ErrInclusion]))
  /\ ProcessBlobs Fixture.reject_odd Fixture.proofs_bad ProofsFirst 7
       Fixture.batch Fixture.avs
     = (Fixture.avs, Raise Fixture.ErrProofs).
Proof.
  split; [reflexivity|].
  split; [reflexivity|].
  pose proof (ProcessBlobs_first_error Fixture.reject_odd Fixture.proofs_bad
                7 Fixture.batch Fixture.avs
                (joinError [Fixture.ErrInclusion; Fixture.ErrInclusion])
                Fixture.ErrProofs eq_refl eq_refl)
    as (_ & _ & _ & Hfirst & Hsecond).
  split; [exact Hfirst | exact Hsecond].
Defined.

Lemma not_reflects_errorString (target : error) (msg : string) :
  target <> errorString msg -> ~ reflects target (errorString msg).
Proof. intros Hne Hr. inversion Hr; subst; contradiction. Qed.

(** C8, as stated, fails: with the inclusion proofs of two sidecars
    rejected and the proofs of the batch rejected too, the error returned
    is, when the inclusion task returns first, the joined inclusion errors,
    in which the error of the other task is nowhere; and, when the other
    task returns first, its error alone, which is not a joined error and
    carries none of the inclusion errors. *)
Lemma ProcessBlobs_error_not_combined :
  let inclusion := joinError [Fixture.ErrInclusion; Fixture.ErrInclusion] in
  verifyInclusionProofs Fixture.reject_odd Fixture.batch = Some inclusion
  /\ Fixture.proofs_bad Fixture.batch = Some Fixture.ErrProofs
  /\ (exists err,
        ProcessBlobs Fixture.reject_odd Fixture.proofs_bad InclusionFirst 7
          Fixture.batch Fixture.avs = (Fixture.avs, Raise err)
        /\ ~ reflects Fixture.ErrProofs err)
  /\ (exists err,
        ProcessBlobs Fixture.reject_odd Fixture.proofs_bad ProofsFirst 7
          Fixture.batch Fixture.avs = (Fixture.avs, Raise err)
        /\ ~ reflects inclusion err
        /\ ~ reflects Fixture.ErrInclusion err).
Proof.
  cbv zeta. split; [reflexivity|]. split; [reflexivity|]. split.
  - eexists. split; [reflexivity|].
    intros Hr. inversion Hr as [|errs e Hin Hsub]; subst.
    apply (not_reflects_errorString Fixture.ErrProofs
             "inclusion proof mismatch"); [discriminate|].
    apply elem_of_cons in Hin as [->|Hin]; [exact Hsub|].
    apply elem_of_cons in Hin as [->|Hin]; [exact Hsub|].
    apply elem_of_nil in Hin. contradiction.
  - eexists. split; [reflexivity|]. split.
    + apply not_reflects_errorString. discriminate.
    + apply not_reflects_errorString. discriminate.
Qed.

(** ** More on the pass: nothing to do, and reads that fail *)

(** X1.  With the four reads succeeding and no validator of the registry
    both slashed and withdrawable at the slashable epoch (an empty registry
    included), [processSlashings] returns nil and leaves the state as it
    is, whatever the total active balance: no division is reached. *)
Theorem processSlashings_nothing_slashable {St : Type} `{!BeaconState St}
    (cs : ChainSpec) (st : St) (totalBalance totalSlashings : Z)
    (vals : list Validator) (slot : Z) :
  GetTotalActiveBalances (SlotsPerEpoch cs) st = Ret totalBalance ->
  GetTotalSlashing st = Ret totalSlashings ->
  GetValidators st = Ret vals ->
  GetSlot st = Ret slot ->
  Forall (fun val =>
            Slashed val = false
            \/ WithdrawableEpoch val
               <> add64 (SlotToEpoch cs slot) (EpochsPerSlashingsVector cs) / 2)
         vals ->
  processSlashings cs st = (st, Ret tt).
Proof.
  intros Hb Hs Hv Hsl Hnone.
  rewrite (processSlashings_reads cs st _ _ _ _ Hb Hs Hv Hsl).
  clear Hb Hs Hv Hsl.
  induction Hnone as [|val rest Hval _ IH]; [reflexivity|].
  rewrite slashLoop_cons_no; [exact IH|].
  intros [Hslashed Hepoch].
  destruct Hval as [Hval|Hval]; [congruence | exact (Hval Hepoch)].
Qed.

Lemma processSlashings_nothing_slashable_witness :
  processSlashings Fixture.cs
    (MemState.mk (Some 64) [Fixture.bob; Fixture.dave] [7; 9] [4; 4] 0 [])
  = (MemState.mk (Some 64) [Fixture.bob; Fixture.dave] [7; 9] [4; 4] 0 [],
     Ret tt).
Proof.
  apply (processSlashings_nothing_slashable Fixture.cs _ 0 8
           [Fixture.bob; Fixture.dave] 64); try reflexivity.
  constructor; [left; reflexivity|].
  constructor; [right; vm_compute; discriminate | constructor].
Defined.

(** X2.  The four reads are made in the order total active balance, total
    slashing, validators, slot; when one of them fails, those before it
    having succeeded, [processSlashings] returns its error and the state is
    as it was: no validator has been visited. *)
Theorem processSlashings_failing_read {St : Type} `{!BeaconState St}
    (cs : ChainSpec) (st : St) (e : error) :
  GetTotalActiveBalances (SlotsPerEpoch cs) st = Raise e
  \/ (exists totalBalance,
        GetTotalActiveBalances (SlotsPerEpoch cs) st = Ret totalBalance
        /\ (GetTotalSlashing st = Raise e
            \/ exists totalSlashings,
                 GetTotalSlashing st = Ret totalSlashings
                 /\ (GetValidators st = Raise e
                     \/ exists vals,
                          GetValidators st = Ret vals
                          /\ GetSlot st = Raise e))) ->
  processSlashings cs st = (st, Raise e)
  /\ forall st' r, processSlashings cs st = (st', r) -> st' = st.
Proof.
  intros Hfail.
  assert (processSlashings cs st = (st, Raise e)) as Hrun.
  { unfold processSlashings, seq, read.
    destruct Hfail as [->|(b & -> & [->|(s & -> & [->|(vals & -> & ->)])])];
      reflexivity. }
  split; [exact Hrun|].
  intros st' r Hr. rewrite Hrun in Hr. congruence.
Qed.

Lemma processSlashings_failing_read_witness :
  processSlashings Fixture.cs
    (MemState.mk None [Fixture.alice] [40] [4] 96 [])
  = (MemState.mk None [Fixture.alice] [40] [4] 96 [],
     Raise MemState.ErrSlotUnavailable).
Proof.
  refine (proj1 (processSlashings_failing_read Fixture.cs _
                   MemState.ErrSlotUnavailable _)).
  right. exists 96. split; [reflexivity|].
  right. exists 4. split; [reflexivity|].
  right. exists [Fixture.alice]. split; reflexivity.
Defined.

(** ** More on the penalty *)

(** X3.  In a pass, when the product of the balance units and the adjusted
    total fits in 64 bits, the amount handed to [DecreaseBalance] lies
    between 0 and the validator's effective balance and is a multiple of
    the increment. *)
Theorem processSlash_amount_bounded {St : Type} `{!BeaconState St}
    (cs : ChainSpec) (val : Validator) (totalSlashings totalBalance : Z)
    (st : St) (idx : Z) :
  0 < EffectiveBalanceIncrement cs ->
  0 < totalBalance ->
  0 <= EffectiveBalance val < 2 ^ 64 ->
  ValidatorIndexByPubkey (Pubkey val) st = Ret idx ->
  let adjusted := adjustedTotalSlashingBalance cs totalSlashings totalBalance in
  EffectiveBalance val / EffectiveBalanceIncrement cs * adjusted < 2 ^ 64 ->
  exists amount,
    processSlash cs val adjusted totalBalance st = DecreaseBalance idx amount st
    /\ 0 <= amount <= EffectiveBalance val
    /\ amount mod EffectiveBalanceIncrement cs = 0.
Proof.
  intros Hinc Htot Heb Hidx adjusted Hfit.
  assert (0 <= adjusted <= totalBalance) as Hadj.
  { unfold adjusted, adjustedTotalSlashingBalance.
    pose proof (mul64_nonneg totalSlashings (ProportionalSlashingMultiplier cs)).
    lia. }
  destruct (penalty_no_overflow cs val adjusted totalBalance Hinc Heb Hadj Htot Hfit)
    as [Heq Hle].
  exists (penalty cs val adjusted totalBalance).
  split; [|split; [split|]].
  - rewrite processSlash_nonzero by lia. rewrite Hidx. reflexivity.
  - apply mul64_nonneg.
  - exact Hle.
  - rewrite Heq. apply Z.mod_mul. lia.
Qed.

Lemma processSlash_amount_bounded_witness :
  exists amount,
    processSlash Fixture.cs Fixture.carol
      (adjustedTotalSlashingBalance Fixture.cs 8000000007 96000000000)
      96000000000 Fixture.st
    = DecreaseBalance 2 amount Fixture.st
    /\ 0 <= amount <= EffectiveBalance Fixture.carol
    /\ amount mod EffectiveBalanceIncrement Fixture.cs = 0.
Proof.
  apply (processSlash_amount_bounded Fixture.cs Fixture.carol
           8000000007 96000000000 Fixture.st 2);
    try reflexivity; vm_compute; split; congruence.
Defined.

(** X4.  When the wrapped product of the total slashing and the multiplier
    reaches the total active balance, the adjusted total is the total
    active balance; and then, provided the effective balance is a [uint64]
    and the product of the balance units and the total active balance fits
    in 64 bits, a slashed validator is charged its whole effective balance,
    rounded down to a multiple of the increment. *)
Theorem processSlash_full_balance {St : Type} `{!BeaconState St}
    (cs : ChainSpec) (val : Validator) (totalSlashings totalBalance : Z)
    (st : St) (idx : Z) :
  0 < EffectiveBalanceIncrement cs ->
  0 < totalBalance ->
  0 <= EffectiveBalance val < 2 ^ 64 ->
  ValidatorIndexByPubkey (Pubkey val) st = Ret idx ->
  totalBalance <= mul64 totalSlashings (ProportionalSlashingMultiplier cs) ->
  EffectiveBalance val / EffectiveBalanceIncrement cs * totalBalance < 2 ^ 64 ->
  processSlash cs val
    (adjustedTotalSlashingBalance cs totalSlashings totalBalance)
    totalBalance st
  = DecreaseBalance idx
      (EffectiveBalance val / EffectiveBalanceIncrement cs
       * EffectiveBalanceIncrement cs) st.
Proof.
  intros Hinc Htot Heb Hidx Hreach Hfit.
  rewrite processSlash_nonzero by lia. rewrite Hidx. f_equal.
  unfold adjustedTotalSlashingBalance. rewrite Z.min_r by exact Hreach.
  unfold penalty, mul64.
  set (inc := EffectiveBalanceIncrement cs) in *.
  set (units := EffectiveBalance val / inc) in *.
  assert (0 <= units) as Hu by (apply Z.div_pos; lia).
  assert (units * inc <= EffectiveBalance val) as Hui.
  { unfold units. rewrite Z.mul_comm. apply Z.mul_div_le. lia. }
  rewrite (wrap64_small (units * totalBalance)) by (unfold modulus64; nia).
  rewrite Z.div_mul by lia.
  apply wrap64_small. unfold modulus64. nia.
Qed.

Lemma processSlash_full_balance_witness :
  processSlash Fixture.cs Fixture.carol
    (adjustedTotalSlashingBalance Fixture.cs 8000000007 20000000000)
    20000000000 Fixture.st
  = DecreaseBalance 2 16000000000 Fixture.st.
Proof.
  apply (processSlash_full_balance Fixture.cs Fixture.carol
           8000000007 20000000000 Fixture.st 2);
    try reflexivity; vm_compute; try split; congruence.
Defined.

(** X5.  With a total slashing of 0 the adjusted total is 0 and the amount
    handed to [DecreaseBalance] is 0, whatever the effective balance. *)
Theorem processSlash_no_slashings {St : Type} `{!BeaconState St}
    (cs : ChainSpec) (val : Validator) (totalBalance : Z)
    (st : St) (idx : Z) :
  EffectiveBalanceIncrement cs <> 0 ->
  0 < totalBalance ->
  ValidatorIndexByPubkey (Pubkey val) st = Ret idx ->
  processSlash cs val (adjustedTotalSlashingBalance cs 0 totalBalance)
    totalBalance st
  = DecreaseBalance idx 0 st.
Proof.
  intros Hinc Htot Hidx.
  rewrite processSlash_nonzero by lia. rewrite Hidx. f_equal.
  unfold adjustedTotalSlashingBalance, penalty, mul64.
  rewrite Z.mul_0_l, (wrap64_small 0) by (unfold modulus64; lia).
  rewrite Z.min_l by lia.
  rewrite Z.mul_0_r, (wrap64_small 0) by (unfold modulus64; lia).
  rewrite Z.div_0_l by lia. rewrite Z.mul_0_l.
  apply wrap64_small. unfold modulus64. lia.
Qed.

Lemma processSlash_no_slashings_witness :
  processSlash Fixture.cs Fixture.alice
    (adjustedTotalSlashingBalance Fixture.cs 0 96000000000)
    96000000000 Fixture.st
  = DecreaseBalance 0 0 Fixture.st.
Proof.
  apply (processSlash_no_slashings Fixture.cs Fixture.alice 96000000000
           Fixture.st 0); try reflexivity; vm_compute; congruence.
Defined.

(** X6.  In one pass, of two validators the one with the larger effective
    balance is charged at least as much, provided the product of its
    balance units and the adjusted total fits in 64 bits. *)
Theorem processSlash_monotone {St : Type} `{!BeaconState St}
    (cs : ChainSpec) (val1 val2 : Validator) (adjusted totalBalance : Z)
    (st : St) (idx1 idx2 : Z) :
  0 < EffectiveBalanceIncrement cs ->
  0 < totalBalance ->
  0 <= adjusted <= totalBalance ->
  0 <= EffectiveBalance val1 <= EffectiveBalance val2 ->
  EffectiveBalance val2 < 2 ^ 64 ->
  EffectiveBalance val2 / EffectiveBalanceIncrement cs * adjusted < 2 ^ 64 ->
  ValidatorIndexByPubkey (Pubkey val1) st = Ret idx1 ->
  ValidatorIndexByPubkey (Pubkey val2) st = Ret idx2 ->
  exists amount1 amount2,
    processSlash cs val1 adjusted totalBalance st
    = DecreaseBalance idx1 amount1 st
    /\ processSlash cs val2 adjusted totalBalance st
       = DecreaseBalance idx2 amount2 st
    /\ amount1 <= amount2.
Proof.
  intros Hinc Htot Hadj Heb Heb2 Hfit Hidx1 Hidx2.
  exists (penalty cs val1 adjusted totalBalance),
         (penalty cs val2 adjusted totalBalance).
  split; [rewrite processSlash_nonzero by lia; rewrite Hidx1; reflexivity|].
  split; [rewrite processSlash_nonzero by lia; rewrite Hidx2; reflexivity|].
  assert (EffectiveBalance val1 / EffectiveBalanceIncrement cs
          <= EffectiveBalance val2 / EffectiveBalanceIncrement cs) as Hunits
    by (apply Z.div_le_mono; lia).
  assert (0 <= EffectiveBalance val1 / EffectiveBalanceIncrement cs) as Hu1
    by (apply Z.div_pos; lia).
  destruct (penalty_no_overflow cs val1 adjusted totalBalance) as [-> _];
    try lia; [nia|].
  destruct (penalty_no_overflow cs val2 adjusted totalBalance) as [-> _];
    try lia.
  apply Z.mul_le_mono_nonneg_r; [lia|].
  apply Z.div_le_mono; [lia | nia].
Qed.

Lemma processSlash_monotone_witness :
  exists amount1 amount2,
    processSlash Fixture.cs Fixture.carol 24000000021 96000000000 Fixture.st
    = DecreaseBalance 2 amount1 Fixture.st
    /\ processSlash Fixture.cs Fixture.alice 24000000021 96000000000 Fixture.st
       = DecreaseBalance 0 amount2 Fixture.st
    /\ amount1 <= amount2.
Proof.
  apply (processSlash_monotone Fixture.cs Fixture.carol Fixture.alice
           24000000021 96000000000 Fixture.st 2 0);
    try reflexivity; vm_compute; try split; congruence.
Defined.

(** ** The balances after a pass *)

Lemma slashLoop_balances (cs : ChainSpec) (s adjusted totalBalance : Z)
    (vals : list Validator) (st st' : MemState.t) :
  NoDup (Pubkey <$> MemState.validators st) ->
  NoDup (Pubkey <$> vals) ->
  (forall val, val ∈ vals -> val ∈ MemState.validators st) ->
  slashLoop cs s adjusted totalBalance vals st = (st', Ret tt) ->
  forall j val b,
    MemState.validators st !! j = Some val ->
    MemState.balances st !! j = Some b ->
    (val ∈ vals -> slashable cs s val ->
     MemState.balances st' !! j
     = Some (b - Z.min b (penalty cs val adjusted totalBalance)))
    /\ (val ∉ vals \/ ~ slashable cs s val ->
        MemState.balances st' !! j = Some b).
Proof.
  intros Hreg. revert st Hreg.
  induction vals as [|v rest IH]; intros st Hreg Hnd Hsub Hrun j val b Hj Hb.
  - injection Hrun as <-. split; [intros Hin; inversion Hin | intros _; exact Hb].
  - cbn [fmap list_fmap] in Hnd. apply NoDup_cons in Hnd as [Hfresh Hnd].
    assert (forall val', val' ∈ rest -> val' ∈ MemState.validators st) as Hsub'
      by (intros val' Hin; apply Hsub, list_elem_of_further, Hin).
    assert (v ∉ rest) as Hv.
    { intros Hin. apply Hfresh. apply list_elem_of_fmap. exists v.
      split; [reflexivity | exact Hin]. }
    destruct (decide (slashable cs s v)) as [Hs|Hs].
    + rewrite slashLoop_cons_yes in Hrun by exact Hs. unfold seq in Hrun.
      destruct (processSlash cs v adjusted totalBalance st) as [st1 r1] eqn:Hstep.
      apply processSlash_mem in Hstep
        as [(i & u & b0 & -> & Hfind & Hb0 & Hst1)|[Hr1 ->]].
      2:{ destruct r1 as [[]| |]; [contradiction Hr1; reflexivity|discriminate..]. }
      assert (v ∈ MemState.validators st) as Hvin
        by (apply Hsub, list_elem_of_here).
      apply list_elem_of_lookup in Hvin as [k Hk].
      destruct (list_find_pubkey_unique _ _ _ _ _ Hreg Hfind Hk) as [-> ->].
      assert (MemState.validators st1 = MemState.validators st) as Hvals
        by (rewrite Hst1; reflexivity).
      assert (MemState.balances st1
              = <[k := b0 - Z.min b0 (penalty cs v adjusted totalBalance)]>
                  (MemState.balances st)) as Hbals
        by (rewrite Hst1; reflexivity).
      specialize (IH st1). rewrite Hvals in IH.
      specialize (IH Hreg Hnd Hsub' Hrun j val).
      destruct (decide (k = j)) as [<-|Hkj].
      * assert (val = v) as -> by congruence.
        assert (b = b0) as -> by congruence.
        destruct (IH (b0 - Z.min b0 (penalty cs v adjusted totalBalance)) Hj)
          as [_ Hkeep].
        { rewrite Hbals. apply list_lookup_insert_eq.
          apply lookup_lt_Some in Hb0. exact Hb0. }
        split.
        -- intros _ _. apply Hkeep. left. exact Hv.
        -- intros [Hout|Hno]; [|contradiction].
           contradiction Hout. apply list_elem_of_here.
      * assert (val <> v) as Hne.
        { intros ->. apply Hkj.
          apply (NoDup_lookup (Pubkey <$> MemState.validators st) k j (Pubkey v)
                   Hreg); rewrite list_lookup_fmap.
          - rewrite Hk. reflexivity.
          - rewrite Hj. reflexivity. }
        destruct (IH b Hj) as [Hyes Hno].
        { rewrite Hbals, list_lookup_insert_ne by exact Hkj. exact Hb. }
        split.
        -- intros Hin. apply elem_of_cons in Hin as [->|Hin];
             [contradiction | exact (Hyes Hin)].
        -- intros [Hout|Hnot]; apply Hno; [left|right; exact Hnot].
           intros Hin. apply Hout, list_elem_of_further, Hin.
    + rewrite slashLoop_cons_no in Hrun by exact Hs.
      destruct (IH st Hreg Hnd Hsub' Hrun j val b Hj Hb) as [Hyes Hno].
      split.
      * intros Hin Hslash. apply elem_of_cons in Hin as [->|Hin];
          [contradiction | exact (Hyes Hin Hslash)].
      * intros [Hout|Hnot]; apply Hno; [left|right; exact Hnot].
        intros Hin. apply Hout, list_elem_of_further, Hin.
Qed.

(** X7.  Over the reference state, the keys of the registry being
    distinct: after a pass that returns nil, the balance of every validator
    that is slashed and withdrawable at the slashable epoch is its balance
    minus the penalty, held at 0 when the penalty exceeds it, each such
    validator being charged once; and every other balance is as before. *)
Theorem processSlashings_balances (cs : ChainSpec) (st st' : MemState.t)
    (s : Z) :
  NoDup (Pubkey <$> MemState.validators st) ->
  MemState.slot st = Some s ->
  processSlashings cs st = (st', Ret tt) ->
  let epoch :=
    ((SlotToEpoch cs s + EpochsPerSlashingsVector cs) mod 2 ^ 64) / 2 in
  let totalBalance := MemState.totalActiveBalance st in
  let adjusted :=
    adjustedTotalSlashingBalance cs
      (fold_left add64 (MemState.slashings st) 0) totalBalance in
  forall j val b,
    MemState.validators st !! j = Some val ->
    MemState.balances st !! j = Some b ->
    (Slashed val = true /\ WithdrawableEpoch val = epoch ->
     MemState.balances st' !! j
     = Some (Z.max (b - penalty cs val adjusted totalBalance) 0))
    /\ (~ (Slashed val = true /\ WithdrawableEpoch val = epoch) ->
        MemState.balances st' !! j = Some b).
Proof.
  intros Hreg Hslot Hrun epoch totalBalance adjusted j val b Hj Hb.
  rewrite (processSlashings_reads cs st totalBalance
             (fold_left add64 (MemState.slashings st) 0)
             (MemState.validators st) s) in Hrun;
    [|reflexivity..|cbn; unfold MemState.getSlot; rewrite Hslot; reflexivity].
  destruct (slashLoop_balances cs s adjusted totalBalance
              (MemState.validators st) st st' Hreg Hreg (fun _ H => H) Hrun
              j val b Hj Hb) as [Hyes Hno].
  split.
  - intros Hs. rewrite Hyes.
    + f_equal. lia.
    + apply list_elem_of_lookup. exists j. exact Hj.
    + exact Hs.
  - intros Hs. apply Hno. right. exact Hs.
Qed.

Lemma processSlashings_balances_witness :
  MemState.balances Fixture.st !! 2%nat = Some 5000000000
  /\ MemState.balances Fixture.st_slashed !! 2%nat
     = Some (Z.max (5000000000
                    - penalty Fixture.cs Fixture.carol 24000000021 96000000000)
                   0)
  /\ MemState.balances Fixture.st_slashed !! 1%nat = Some 40000000000.
Proof.
  assert (NoDup (Pubkey <$> MemState.validators Fixture.st)) as Hnd.
  { apply (bool_decide_unpack _). vm_compute. exact I. }
  split; [reflexivity|].
  split.
  - refine (proj1 (processSlashings_balances Fixture.cs Fixture.st
                     Fixture.st_slashed 64 Hnd eq_refl eq_refl
                     2%nat Fixture.carol 5000000000 eq_refl eq_refl) _).
    split; reflexivity.
  - refine (proj2 (processSlashings_balances Fixture.cs Fixture.st
                     Fixture.st_slashed 64 Hnd eq_refl eq_refl
                     1%nat Fixture.bob 40000000000 eq_refl eq_refl) _).
    intros [Hs _]. discriminate.
Defined.

(** ** Resetting twice *)

(** X8.  Over the reference state, the length of the slashings vector not
    being zero in the chain parameters: a second [processSlashingsReset]
    after one that returned nil returns nil too and leaves the slashings
    vector, the balances and the validators as the first left them. *)
Theorem processSlashingsReset_twice (cs : ChainSpec) (st st1 : MemState.t) :
  EpochsPerSlashingsVector cs <> 0 ->
  processSlashingsReset cs st = (st1, Ret tt) ->
  exists st2,
    processSlashingsReset cs st1 = (st2, Ret tt)
    /\ MemState.slashings st2 = MemState.slashings st1
    /\ MemState.balances st2 = MemState.balances st1
    /\ MemState.validators st2 = MemState.validators st1.
Proof.
  intros Hn. rewrite !processSlashingsReset_mem by exact Hn.
  destruct (MemState.slot st) as [s|] eqn:Hslot; [|discriminate].
  unfold MemState.updateSlashingAtIndex.
  set (index := add64 (SlotToEpoch cs s) 1 mod EpochsPerSlashingsVector cs).
  destruct ((0 <=? index)
            && (index <? Z.of_nat (length (MemState.slashings st))))
    eqn:Hrange; [|discriminate].
  intros [= <-]. cbn [MemState.slot MemState.slashings MemState.balances
                      MemState.validators MemState.totalActiveBalance
                      MemState.writes].
  rewrite Hslot. fold index. rewrite length_insert, Hrange.
  eexists. split; [reflexivity|].
  cbn [MemState.slashings MemState.balances MemState.validators].
  rewrite list_insert_insert_eq. repeat split; reflexivity.
Qed.

Lemma processSlashingsReset_twice_witness :
  exists st2,
    processSlashingsReset Fixture.cs Fixture.st_reset = (st2, Ret tt)
    /\ MemState.slashings st2 = MemState.slashings Fixture.st_reset
    /\ MemState.balances st2 = MemState.balances Fixture.st_reset
    /\ MemState.validators st2 = MemState.validators Fixture.st_reset.
Proof.
  apply (processSlashingsReset_twice Fixture.cs Fixture.st Fixture.st_reset).
  - vm_compute. discriminate.
  - reflexivity.
Defined.

(** ** More on the blob processor *)

Lemma verifyInclusionProofs_none_inv {BlobSidecar : Type}
    (VerifyKZGInclusionProof : BlobSidecar -> option error)
    (sidecars : BlobSidecars BlobSidecar) :
  verifyInclusionProofs VerifyKZGInclusionProof sidecars = None ->
  Forall (fun sidecar =>
            exists sc, sidecar = Some sc /\ VerifyKZGInclusionProof sc = None)
         (Sidecars sidecars).
Proof.
  rewrite verifyInclusionProofs_failures.
  destruct (omap _ _) as [|e es] eqn:Hfail; [|discriminate]. intros _.
  apply omap_nil_iff in Hfail.
  eapply Forall_impl; [exact Hfail|].
  intros [sc|] Hsc; [exists sc; split; [reflexivity | exact Hsc]|discriminate].
Qed.

(** X9.  Whatever the store, the verifiers and the order in which the two
    tasks return: when [ProcessBlobs] returns nil, every sidecar of the
    batch is there with its inclusion proof accepted, the proofs of the
    batch are accepted, and the store is the one [Persist], called with the
    given slot and the whole batch, has left on returning nil. *)
Theorem ProcessBlobs_success_inv {BlobSidecar Avs : Type}
    `{!AvailabilityStore BlobSidecar Avs}
    (VerifyKZGInclusionProof : BlobSidecar -> option error)
    (VerifyKZGProofs : BlobSidecars BlobSidecar -> option error)
    (sched : schedule) (slot : Z) (sidecars : BlobSidecars BlobSidecar)
    (avs avs' : Avs) :
  ProcessBlobs VerifyKZGInclusionProof VerifyKZGProofs sched slot sidecars avs
  = (avs', Ret tt) ->
  Forall (fun sidecar =>
            exists sc, sidecar = Some sc /\ VerifyKZGInclusionProof sc = None)
         (Sidecars sidecars)
  /\ VerifyKZGProofs sidecars = None
  /\ Persist slot sidecars avs = (avs', Ret tt).
Proof.
  unfold ProcessBlobs, errgroup.Wait, pure.
  destruct (verifyInclusionProofs VerifyKZGInclusionProof sidecars) eqn:Hincl;
    destruct (VerifyKZGProofs sidecars) eqn:Hproofs;
    destruct sched; cbn; try discriminate.
  all: intros Hpersist; split;
    [apply verifyInclusionProofs_none_inv; exact Hincl|].
  all: split; [reflexivity | exact Hpersist].
Qed.

Lemma ProcessBlobs_success_inv_witness :
  Forall (fun sidecar =>
            exists sc, sidecar = Some sc /\ Fixture.accept_all sc = None)
         (Sidecars Fixture.batch)
  /\ Fixture.proofs_ok Fixture.batch = None
  /\ Persist 7 Fixture.batch Fixture.avs
     = (MemAvs.mk {[ 7 := Fixture.batch ]} None [(7, Fixture.batch)], Ret tt).
Proof.
  apply (ProcessBlobs_success_inv Fixture.accept_all Fixture.proofs_ok
           InclusionFirst 7 Fixture.batch Fixture.avs).
  reflexivity.
Defined.

(** X10.  Whatever the store, the verifiers and the order in which the
    two tasks return: an error returned by [ProcessBlobs] is the error of
    the inclusion task or of the task verifying the proofs of the batch,
    the store being as it was given; or, both tasks having returned nil, it
    is the error [Persist] returned. *)
Theorem ProcessBlobs_error_inv {BlobSidecar Avs : Type}
    `{!AvailabilityStore BlobSidecar Avs}
    (VerifyKZGInclusionProof : BlobSidecar -> option error)
    (VerifyKZGProofs : BlobSidecars BlobSidecar -> option error)
    (sched : schedule) (slot : Z) (sidecars : BlobSidecars BlobSidecar)
    (avs avs' : Avs) (err : error) :
  ProcessBlobs VerifyKZGInclusionProof VerifyKZGProofs sched slot sidecars avs
  = (avs', Raise err) ->
  (avs' = avs
   /\ (verifyInclusionProofs VerifyKZGInclusionProof sidecars = Some err
       \/ VerifyKZGProofs sidecars = Some err))
  \/ (verifyInclusionProofs VerifyKZGInclusionProof sidecars = None
      /\ VerifyKZGProofs sidecars = None
      /\ Persist slot sidecars avs = (avs', Raise err)).
Proof.
  unfold ProcessBlobs, errgroup.Wait, pure.
  destruct (verifyInclusionProofs VerifyKZGInclusionProof sidecars) eqn:Hincl;
    destruct (VerifyKZGProofs sidecars) eqn:Hproofs;
    destruct sched; cbn.
  all: try (intros [= <- <-]; left; split; [reflexivity|tauto]).
  all: intros Hpersist; right; repeat split; exact Hpersist.
Qed.

Lemma ProcessBlobs_error_inv_witness :
  (Fixture.avs = Fixture.avs
   /\ (verifyInclusionProofs Fixture.accept_all Fixture.batch_nil
       = Some (joinError [ErrAttemptedToVerifyNilSidecar])
       \/ Fixture.proofs_ok Fixture.batch_nil
          = Some (joinError [ErrAttemptedToVerifyNilSidecar])))
  \/ (verifyInclusionProofs Fixture.accept_all Fixture.batch_nil = None
      /\ Fixture.proofs_ok Fixture.batch_nil = None
      /\ Persist 7 Fixture.batch_nil Fixture.avs
         = (Fixture.avs, Raise (joinError [ErrAttemptedToVerifyNilSidecar]))).
Proof.
  apply (ProcessBlobs_error_inv Fixture.accept_all Fixture.proofs_ok
           ProofsFirst 7 Fixture.batch_nil Fixture.avs Fixture.avs).
  reflexivity.
Defined.

(** X11.  Whatever the store and the verifiers: unless both tasks fail,
    [ProcessBlobs] does the same whichever task returns first. *)
Theorem ProcessBlobs_schedule_irrelevant {BlobSidecar Avs : Type}
    `{!AvailabilityStore BlobSidecar Avs}
    (VerifyKZGInclusionProof : BlobSidecar -> option error)
    (VerifyKZGProofs : BlobSidecars BlobSidecar -> option error)
    (slot : Z) (sidecars : BlobSidecars BlobSidecar) (avs : Avs) :
  verifyInclusionProofs VerifyKZGInclusionProof sidecars = None
  \/ VerifyKZGProofs sidecars = None ->
  ProcessBlobs VerifyKZGInclusionProof VerifyKZGProofs InclusionFirst
    slot sidecars avs
  = ProcessBlobs VerifyKZGInclusionProof VerifyKZGProofs ProofsFirst
      slot sidecars avs.
Proof.
  unfold ProcessBlobs, errgroup.Wait.
  intros [->| ->]; cbn.
  - destruct (VerifyKZGProofs sidecars); reflexivity.
  - destruct (verifyInclusionProofs VerifyKZGInclusionProof sidecars);
      reflexivity.
Qed.

Lemma ProcessBlobs_schedule_irrelevant_witness :
  ProcessBlobs Fixture.reject_odd Fixture.proofs_ok InclusionFirst
    7 Fixture.batch Fixture.avs
  = ProcessBlobs Fixture.reject_odd Fixture.proofs_ok ProofsFirst
      7 Fixture.batch Fixture.avs.
Proof.
  apply (ProcessBlobs_schedule_irrelevant Fixture.reject_odd Fixture.proofs_ok
           7 Fixture.batch Fixture.avs).
  right. reflexivity.
Defined.

(** X12.  An empty batch passes the inclusion check: whatever the store
    and the order of the tasks, [ProcessBlobs] returns the error of the task
    verifying the proofs of the batch when there is one, without calling
    the store, and calls [Persist] with the empty batch otherwise. *)
Theorem ProcessBlobs_empty_batch {BlobSidecar Avs : Type}
    `{!AvailabilityStore BlobSidecar Avs}
    (VerifyKZGInclusionProof : BlobSidecar -> option error)
    (VerifyKZGProofs : BlobSidecars BlobSidecar -> option error)
    (sched : schedule) (slot : Z) (sidecars : BlobSidecars BlobSidecar)
    (avs : Avs) :
  Sidecars sidecars = [] ->
  ProcessBlobs VerifyKZGInclusionProof VerifyKZGProofs sched slot sidecars avs
  = match VerifyKZGProofs sidecars with
    | Some err => (avs, Raise err)
    | None => Persist slot sidecars avs
    end.
Proof.
  intros Hempty. unfold ProcessBlobs, verifyInclusionProofs, errgroup.Wait.
  rewrite Hempty. cbn.
  destruct sched, (VerifyKZGProofs sidecars); reflexivity.
Qed.

Lemma ProcessBlobs_empty_batch_witness :
  ProcessBlobs Fixture.reject_odd Fixture.proofs_bad InclusionFirst 7
    (mkBlobSidecars []) Fixture.avs
  = (Fixture.avs, Raise Fixture.ErrProofs).
Proof.
  apply (ProcessBlobs_empty_batch Fixture.reject_odd Fixture.proofs_bad
           InclusionFirst 7 (mkBlobSidecars []) Fixture.avs).
  reflexivity.
Defined.


(** ** The pre-block handler *)

Section PreBlockFacts.
Context {Ctx Request Block Sidecars Version : Type}.
Context `{!preblock.ABCI Request Block Sidecars Version}.
Implicit Types (h : preblock.BeaconPreBlockHandler Ctx Request Block Sidecars Version).
Implicit Types (w : preblock.World Ctx) (req : Request) (c : Ctx).

(** What is left to do once the block has been dealt with. *)
Lemma PreBlocker_after_slot h req w c1 :
  preblock.ProcessSlot (preblock.chainService h) (preblock.ctx w) = (c1, Ret tt) ->
  preblock.PreBlocker h req w =
    seq (pure (preblock.ReadOnlyBeaconBlockFromABCIRequest req
                 (preblock.BeaconBlockPosition (preblock.cfg h))
                 (preblock.ActiveForkVersionForSlot (preblock.chainService h)
                    (preblock.Height req mod 2 ^ 64))))
      (fun blk =>
         seq (pure (preblock.GetBlobSideCars req
                      (preblock.BlobSidecarsBlockPosition (preblock.cfg h))))
           (fun blobSideCars =>
              seq (preblock.processCached h blk blobSideCars)
                (fun _ =>
                   seq (preblock.withCtx
                          (preblock.PostBlockProcess (preblock.chainService h) blk))
                     (fun _ => preblock.callNextHandler h req))))
      (preblock.mkWorld c1 (preblock.logged w)).
Proof.
  intros Hslot. unfold preblock.PreBlocker, preblock.withCtx at 1.
  rewrite Hslot. reflexivity.
Qed.

End PreBlockFacts.

(** X13.  When the processing of the slot fails, [PreBlocker] hands the
    error to the logger, once and at the error level, and returns it; the
    request is not read, no block is processed, and neither the post-block
    processing nor the next handler runs: the context is as the processing
    of the slot left it. *)
Theorem PreBlocker_slot_failure {Ctx Request Block Sidecars Version : Type}
    `{!preblock.ABCI Request Block Sidecars Version}
    (h : preblock.BeaconPreBlockHandler Ctx Request Block Sidecars Version)
    (req : Request) (w : preblock.World Ctx) (c1 : Ctx) (err : error) :
  preblock.ProcessSlot (preblock.chainService h) (preblock.ctx w)
  = (c1, Raise err) ->
  preblock.PreBlocker h req w
  = (preblock.mkWorld c1
       (preblock.logged w
          ++ [mkLogEntry LevelError "failed to process slot" err]),
     Raise err).
Proof.
  intros Hslot. unfold preblock.PreBlocker, preblock.withCtx.
  rewrite Hslot. reflexivity.
Qed.

Lemma PreBlocker_slot_failure_witness :
  preblock.PreBlocker Scenario.handler_stuck 4 Scenario.world
  = (preblock.mkWorld []
       [mkLogEntry LevelError "failed to process slot"
          (errorString "slot failed")],
     Raise (errorString "slot failed")).
Proof.
  apply (PreBlocker_slot_failure Scenario.handler_stuck 4 Scenario.world
           [] (errorString "slot failed")).
  reflexivity.
Defined.

(** X14.  The slot having been processed, when the beacon block cannot be
    read from the request, or it can and the blob sidecars cannot,
    [PreBlocker] returns that error: what the processing of the slot did to
    the context stays, nothing is logged, and no block is processed. *)
Theorem PreBlocker_unreadable_request
    {Ctx Request Block Sidecars Version : Type}
    `{!preblock.ABCI Request Block Sidecars Version}
    (h : preblock.BeaconPreBlockHandler Ctx Request Block Sidecars Version)
    (req : Request) (w : preblock.World Ctx) (c1 : Ctx) (err : error) :
  preblock.ProcessSlot (preblock.chainService h) (preblock.ctx w)
  = (c1, Ret tt) ->
  let version :=
    preblock.ActiveForkVersionForSlot (preblock.chainService h)
      (preblock.Height req mod 2 ^ 64) in
  let block :=
    preblock.ReadOnlyBeaconBlockFromABCIRequest req
      (preblock.BeaconBlockPosition (preblock.cfg h)) version in
  block = Raise err
  \/ ((exists blk, block = Ret blk)
      /\ preblock.GetBlobSideCars req
           (preblock.BlobSidecarsBlockPosition (preblock.cfg h))
         = Raise err) ->
  preblock.PreBlocker h req w
  = (preblock.mkWorld c1 (preblock.logged w), Raise err).
Proof.
  intros Hslot version block Hbad.
  rewrite (PreBlocker_after_slot h req w c1 Hslot).
  fold version. fold block. unfold seq at 1, pure at 1.
  destruct Hbad as [->|[[blk ->] Hsc]]; [reflexivity|].
  unfold seq at 1, pure at 1. rewrite Hsc. reflexivity.
Qed.

Lemma PreBlocker_unreadable_request_witness :
  preblock.PreBlocker Scenario.handler 0 Scenario.world
  = (preblock.mkWorld ["slot"%string] [], Raise (errorString "no sidecars")).
Proof.
  apply (PreBlocker_unreadable_request Scenario.handler 0 Scenario.world
           ["slot"%string] (errorString "no sidecars")).
  - reflexivity.
  - right. split; [exists 0|]; reflexivity.
Defined.

(** X15.  The slot having been processed and the request read, when the
    processing of the block fails, the failure is logged as a warning and
    not returned; what it did on its branch of the context is dropped; and
    [PreBlocker] goes on with the post-block processing and the next
    handler, on the context as the processing of the slot left it. *)
Theorem PreBlocker_block_rejected {Ctx Request Block Sidecars Version : Type}
    `{!preblock.ABCI Request Block Sidecars Version}
    (h : preblock.BeaconPreBlockHandler Ctx Request Block Sidecars Version)
    (req : Request) (w : preblock.World Ctx) (c1 c2 : Ctx)
    (blk : Block) (blobSideCars : Sidecars) (err : error) :
  preblock.ProcessSlot (preblock.chainService h) (preblock.ctx w)
  = (c1, Ret tt) ->
  preblock.ReadOnlyBeaconBlockFromABCIRequest req
    (preblock.BeaconBlockPosition (preblock.cfg h))
    (preblock.ActiveForkVersionForSlot (preblock.chainService h)
       (preblock.Height req mod 2 ^ 64))
  = Ret blk ->
  preblock.GetBlobSideCars req
    (preblock.BlobSidecarsBlockPosition (preblock.cfg h))
  = Ret blobSideCars ->
  preblock.ProcessBeaconBlock (preblock.chainService h) blk blobSideCars c1
  = (c2, Raise err) ->
  preblock.PreBlocker h req w
  = seq (preblock.withCtx
           (preblock.PostBlockProcess (preblock.chainService h) blk))
        (fun _ => preblock.callNextHandler h req)
        (preblock.mkWorld c1
           (preblock.logged w
              ++ [mkLogEntry LevelWarn "failed to receive beacon block" err])).
Proof.
  intros Hslot Hblk Hsc Hproc.
  rewrite (PreBlocker_after_slot h req w c1 Hslot), Hblk, Hsc.
  unfold seq at 1, pure at 1. unfold seq at 1, pure at 1.
  unfold seq at 1, preblock.processCached.
  cbn [preblock.ctx preblock.logged]. rewrite Hproc. reflexivity.
Qed.

Lemma PreBlocker_block_rejected_witness :
  preblock.ProcessBeaconBlock Scenario.chain 5 [5] ["slot"%string]
  = (["slot"; "half a block"]%string, Raise (errorString "bad block"))
  /\ preblock.PreBlocker Scenario.handler 5 Scenario.world
     = (preblock.mkWorld ["slot"; "post"; "next"]%string
          [mkLogEntry LevelWarn "failed to receive beacon block"
             (errorString "bad block")],
        Ret tt).
Proof.
  split; [reflexivity|].
  etransitivity.
  - apply (PreBlocker_block_rejected Scenario.handler 5 Scenario.world
             ["slot"%string] ["slot"; "half a block"]%string 5 [5]
             (errorString "bad block")); reflexivity.
  - reflexivity.
Defined.

(** X16.  The slot having been processed and the request read, when the
    processing of the block returns nil, its branch of the context becomes
    the context, nothing is logged, and [PreBlocker] goes on with the
    post-block processing and the next handler on it. *)
Theorem PreBlocker_block_accepted {Ctx Request Block Sidecars Version : Type}
    `{!preblock.ABCI Request Block Sidecars Version}
    (h : preblock.BeaconPreBlockHandler Ctx Request Block Sidecars Version)
    (req : Request) (w : preblock.World Ctx) (c1 c2 : Ctx)
    (blk : Block) (blobSideCars : Sidecars) :
  preblock.ProcessSlot (preblock.chainService h) (preblock.ctx w)
  = (c1, Ret tt) ->
  preblock.ReadOnlyBeaconBlockFromABCIRequest req
    (preblock.BeaconBlockPosition (preblock.cfg h))
    (preblock.ActiveForkVersionForSlot (preblock.chainService h)
       (preblock.Height req mod 2 ^ 64))
  = Ret blk ->
  preblock.GetBlobSideCars req
    (preblock.BlobSidecarsBlockPosition (preblock.cfg h))
  = Ret blobSideCars ->
  preblock.ProcessBeaconBlock (preblock.chainService h) blk blobSideCars c1
  = (c2, Ret tt) ->
  preblock.PreBlocker h req w
  = seq (preblock.withCtx
           (preblock.PostBlockProcess (preblock.chainService h) blk))
        (fun _ => preblock.callNextHandler h req)
        (preblock.mkWorld c2 (preblock.logged w)).
Proof.
  intros Hslot Hblk Hsc Hproc.
  rewrite (PreBlocker_after_slot h req w c1 Hslot), Hblk, Hsc.
  unfold seq at 1, pure at 1. unfold seq at 1, pure at 1.
  unfold seq at 1, preblock.processCached.
  cbn [preblock.ctx preblock.logged]. rewrite Hproc. reflexivity.
Qed.

Lemma PreBlocker_block_accepted_witness :
  preblock.PreBlocker Scenario.handler 4 Scenario.world
  = (preblock.mkWorld ["slot"; "block"; "post"; "next"]%string [], Ret tt).
Proof.
  etransitivity.
  - apply (PreBlocker_block_accepted Scenario.handler 4 Scenario.world
             ["slot"%string] ["slot"; "block"]%string 4 [4]); reflexivity.
  - reflexivity.
Defined.

(** X17.  A rejected block does not make [PreBlocker] fail: the slot
    having been processed and the request read, when the processing of the
    block fails, the post-block processing returns nil and there is no next
    handler, [PreBlocker] returns nil; the context is the one the
    post-block processing made of what the processing of the slot left. *)
Theorem PreBlocker_rejected_block_returns_nil
    {Ctx Request Block Sidecars Version : Type}
    `{!preblock.ABCI Request Block Sidecars Version}
    (h : preblock.BeaconPreBlockHandler Ctx Request Block Sidecars Version)
    (req : Request) (w : preblock.World Ctx) (c1 c2 c3 : Ctx)
    (blk : Block) (blobSideCars : Sidecars) (err : error) :
  preblock.ProcessSlot (preblock.chainService h) (preblock.ctx w)
  = (c1, Ret tt) ->
  preblock.ReadOnlyBeaconBlockFromABCIRequest req
    (preblock.BeaconBlockPosition (preblock.cfg h))
    (preblock.ActiveForkVersionForSlot (preblock.chainService h)
       (preblock.Height req mod 2 ^ 64))
  = Ret blk ->
  preblock.GetBlobSideCars req
    (preblock.BlobSidecarsBlockPosition (preblock.cfg h))
  = Ret blobSideCars ->
  preblock.ProcessBeaconBlock (preblock.chainService h) blk blobSideCars c1
  = (c2, Raise err) ->
  preblock.PostBlockProcess (preblock.chainService h) blk c1 = (c3, Ret tt) ->
  preblock.nextHandler h = None ->
  preblock.PreBlocker h req w
  = (preblock.mkWorld c3
       (preblock.logged w
          ++ [mkLogEntry LevelWarn "failed to receive beacon block" err]),
     Ret tt).
Proof.
  intros Hslot Hblk Hsc Hproc Hpost Hnext.
  rewrite (PreBlocker_after_slot h req w c1 Hslot), Hblk, Hsc.
  unfold seq at 1, pure at 1. unfold seq at 1, pure at 1.
  unfold seq at 1, preblock.processCached.
  cbn [preblock.ctx preblock.logged]. rewrite Hproc.
  unfold preblock.logWith, seq, preblock.withCtx.
  cbn [preblock.ctx preblock.logged]. rewrite Hpost.
  unfold preblock.callNextHandler. rewrite Hnext. reflexivity.
Qed.

Lemma PreBlocker_rejected_block_returns_nil_witness :
  preblock.PreBlocker Scenario.handler_last 5 Scenario.world
  = (preblock.mkWorld ["slot"; "post"]%string
       [mkLogEntry LevelWarn "failed to receive beacon block"
          (errorString "bad block")],
     Ret tt).
Proof.
  apply (PreBlocker_rejected_block_returns_nil Scenario.handler_last 5
           Scenario.world ["slot"%string] ["slot"; "half a block"]%string
           ["slot"; "post"]%string 5 [5] (errorString "bad block"));
    reflexivity.
Defined.

(** X18.  The slot having been processed, the request read and the block
    accepted, when the post-block processing fails [PreBlocker] returns its
    error and the next handler, if there is one, is not called: the context
    is as the post-block processing left it. *)
Theorem PreBlocker_post_failure {Ctx Request Block Sidecars Version : Type}
    `{!preblock.ABCI Request Block Sidecars Version}
    (h : preblock.BeaconPreBlockHandler Ctx Request Block Sidecars Version)
    (req : Request) (w : preblock.World Ctx) (c1 c2 c3 : Ctx)
    (blk : Block) (blobSideCars : Sidecars) (err : error) :
  preblock.ProcessSlot (preblock.chainService h) (preblock.ctx w)
  = (c1, Ret tt) ->
  preblock.ReadOnlyBeaconBlockFromABCIRequest req
    (preblock.BeaconBlockPosition (preblock.cfg h))
    (preblock.ActiveForkVersionForSlot (preblock.chainService h)
       (preblock.Height req mod 2 ^ 64))
  = Ret blk ->
  preblock.GetBlobSideCars req
    (preblock.BlobSidecarsBlockPosition (preblock.cfg h))
  = Ret blobSideCars ->
  preblock.ProcessBeaconBlock (preblock.chainService h) blk blobSideCars c1
  = (c2, Ret tt) ->
  preblock.PostBlockProcess (preblock.chainService h) blk c2
  = (c3, Raise err) ->
  preblock.PreBlocker h req w
  = (preblock.mkWorld c3 (preblock.logged w), Raise err).
Proof.
  intros Hslot Hblk Hsc Hproc Hpost.
  rewrite (PreBlocker_after_slot h req w c1 Hslot), Hblk, Hsc.
  unfold seq at 1, pure at 1. unfold seq at 1, pure at 1.
  unfold seq at 1, preblock.processCached.
  cbn [preblock.ctx preblock.logged]. rewrite Hproc.
  unfold seq, preblock.withCtx. cbn [preblock.ctx preblock.logged].
  rewrite Hpost. reflexivity.
Qed.

Lemma PreBlocker_post_failure_witness :
  preblock.nextHandler Scenario.handler_post = Some Scenario.next
  /\ preblock.PreBlocker Scenario.handler_post 4 Scenario.world
     = (preblock.mkWorld ["slot"; "block"]%string [],
        Raise (errorString "post failed")).
Proof.
  split; [reflexivity|].
  apply (PreBlocker_post_failure Scenario.handler_post 4 Scenario.world
           ["slot"%string] ["slot"; "block"]%string ["slot"; "block"]%string
           4 [4] (errorString "post failed")); reflexivity.
Defined.

(** ** The staking service *)

(** Entries already logged are kept, and the new ones come after them. *)
Lemma applyOptions_logged {BaseService ValsetChangeProvider : Type}
    (opts : list (staking.Option BaseService ValsetChangeProvider))
    (s : staking.Service BaseService ValsetChangeProvider)
    (logged : list LogEntry) :
  staking.applyOptions opts s logged
  = (fst (staking.applyOptions opts s []),
     logged ++ snd (staking.applyOptions opts s [])).
Proof.
  revert s logged. induction opts as [|opt rest IH]; intros s logged.
  - cbn. rewrite app_nil_r. reflexivity.
  - cbn. destruct (opt s) as [s1 [err|]].
    + rewrite (IH s1 (logged ++ _)), (IH s1 [_]).
      cbn [fst snd]. rewrite <- app_assoc. reflexivity.
    + apply IH.
Qed.

Lemma applyOptions_app {BaseService ValsetChangeProvider : Type}
    (opts1 opts2 : list (staking.Option BaseService ValsetChangeProvider))
    (s : staking.Service BaseService ValsetChangeProvider)
    (logged : list LogEntry) :
  staking.applyOptions (opts1 ++ opts2) s logged
  = staking.applyOptions opts2
      (fst (staking.applyOptions opts1 s logged))
      (snd (staking.applyOptions opts1 s logged)).
Proof.
  revert s logged. induction opts1 as [|opt rest IH]; intros s logged.
  - reflexivity.
  - cbn. destruct (opt s) as [s1 [err|]]; apply IH.
Qed.

(** X19.  [NewService] applies the options from left to right: building
    with [opts1 ++ opts2] gives the service that applying [opts2] to the
    service built with [opts1] gives, and the log of the first followed by
    that of the second. *)
Theorem NewService_app {BaseService ValsetChangeProvider : Type}
    (base : BaseService)
    (opts1 opts2 : list (staking.Option BaseService ValsetChangeProvider)) :
  staking.NewService base (opts1 ++ opts2)
  = (fst (staking.applyOptions opts2
            (fst (staking.NewService base opts1)) []),
     snd (staking.NewService base opts1)
       ++ snd (staking.applyOptions opts2
                 (fst (staking.NewService base opts1)) [])).
Proof.
  unfold staking.NewService. rewrite applyOptions_app.
  apply applyOptions_logged.
Qed.

(** X20.  An option that fails does not stop [NewService]: its error is
    logged, at the error level, what it did to the service before failing
    stays, and the options after it are applied as if it had succeeded;
    [NewService] itself has no error to return. *)
Theorem NewService_failing_option {BaseService ValsetChangeProvider : Type}
    (base : BaseService)
    (opt : staking.Option BaseService ValsetChangeProvider)
    (rest : list (staking.Option BaseService ValsetChangeProvider))
    (s1 : staking.Service BaseService ValsetChangeProvider) (err : error) :
  opt (staking.mkService base None) = (s1, Some err) ->
  staking.NewService base (opt :: rest)
  = (fst (staking.applyOptions rest s1 []),
     mkLogEntry LevelError "Failed to apply option" err
       :: snd (staking.applyOptions rest s1 [])).
Proof.
  intros Hopt. unfold staking.NewService. cbn. rewrite Hopt.
  rewrite applyOptions_logged. reflexivity.
Qed.

Lemma NewService_failing_option_witness :
  Scenario.setThenFail 4 (staking.mkService 9 None)
  = (staking.mkService 9 (Some 4), Some (errorString "late failure"))
  /\ staking.NewService 9 [Scenario.setThenFail 4; Scenario.justFail]
     = (staking.mkService 9 (Some 4),
        [mkLogEntry LevelError "Failed to apply option"
           (errorString "late failure");
         mkLogEntry LevelError "Failed to apply option"
           (errorString "failure")]).
Proof.
  split; [reflexivity|].
  etransitivity.
  - apply (NewService_failing_option 9 (Scenario.setThenFail 4)
             [Scenario.justFail] (staking.mkService 9 (Some 4))
             (errorString "late failure")).
    reflexivity.
  - reflexivity.
Defined.

(** X21.  When no option fails, on whatever service, [NewService] logs
    nothing. *)
Theorem NewService_quiet {BaseService ValsetChangeProvider : Type}
    (base : BaseService)
    (opts : list (staking.Option BaseService ValsetChangeProvider)) :
  Forall (fun opt => forall s, snd (opt s) = None) opts ->
  snd (staking.NewService base opts) = [].
Proof.
  unfold staking.NewService. generalize (staking.mkService base
                                           (None : option ValsetChangeProvider)).
  intros s Hall. revert s.
  induction Hall as [|opt rest Hopt _ IH]; intros s; [reflexivity|].
  cbn. specialize (Hopt s). destruct (opt s) as [s1 [err|]];
    [discriminate | apply IH].
Qed.

Lemma NewService_quiet_witness :
  snd (staking.NewService 9 [Scenario.setProvider 3; Scenario.setProvider 4])
  = [].
Proof.
  apply (NewService_quiet 9 [Scenario.setProvider 3; Scenario.setProvider 4]).
  repeat constructor.
Defined.

(** ** The options of the log processor *)

(** X22.  [WithEthClient], [WithHandlers] and [WithLogger] never fail,
    each sets its own field and leaves the rest of the processor alone; so
    they can be applied in any order: the processor that results holds the
    three values and, for the rest, what it held. *)
Theorem log_options_independent {Eth1Client Handlers Logger Others : Type}
    (p : logs.Processor Eth1Client Handlers Logger Others)
    (c : Eth1Client) (hs : Handlers) (l : Logger) :
  snd (logs.WithEthClient c p) = None
  /\ snd (logs.WithHandlers hs p) = None
  /\ snd (logs.WithLogger l p) = None
  /\ fst (logs.WithLogger l (fst (logs.WithHandlers hs
            (fst (logs.WithEthClient c p)))))
     = logs.mkProcessor c hs l (logs.others p)
  /\ fst (logs.WithEthClient c (fst (logs.WithHandlers hs
            (fst (logs.WithLogger l p)))))
     = logs.mkProcessor c hs l (logs.others p)
  /\ fst (logs.WithHandlers hs (fst (logs.WithEthClient c
            (fst (logs.WithLogger l p)))))
     = logs.mkProcessor c hs l (logs.others p)
  /\ fst (logs.WithEthClient c (fst (logs.WithHandlers hs p)))
     = fst (logs.WithHandlers hs (fst (logs.WithEthClient c p)))
  /\ fst (logs.WithEthClient c (fst (logs.WithLogger l p)))
     = fst (logs.WithLogger l (fst (logs.WithEthClient c p)))
  /\ fst (logs.WithHandlers hs (fst (logs.WithLogger l p)))
     = fst (logs.WithLogger l (fst (logs.WithHandlers hs p))).
Proof. repeat split; reflexivity. Qed.
